(** * The interactive move controller of the chess page (gui/index.js)

    A shallow embedding of the page script: the [state] object, the part of
    the document it reads and writes (the squares of the board, the three
    containers whose display it switches), the worker channel, and the
    functions of the script as state transformers that may end in an
    uncaught TypeError.  The chess engine is an interface
    ([ChessEngineAPI]); the properties hold for every implementation.

    Conventions of the model:
    - a string is a sequence of characters with codes 0 to 255, each one
      UTF-16 code unit of the script's string (ASCII and Latin-1); FEN
      strings, coordinates and move notation are ASCII;
    - a square element is a record in a store, and a reference to it (in
      [state.selectedSquare], among the children of the board) is its
      index, so that a write through one reference is seen through the
      others; style classes other than ['selected-square'] are left out;
    - the message for the worker is kept as the object built by
      [makeComputerMove], before [JSON.stringify];
    - [difficultyScale] is an object literal: a lookup finds its five own
      properties and, for other keys, what it inherits from
      [Object.prototype]. *)

From stdpp Require Import base option list strings pretty gmap.
From Stdlib Require Import ZArith Ascii String Lia.

Local Open Scope string_scope.
Local Open Scope Z_scope.
Local Open Scope nat_scope.

(** ** Strings the way the script uses them *)

Module Js.

(** [s.split(sep)] for a one-character separator, as the first piece
    and the remaining pieces: the result of [split] is never empty. *)
Fixpoint split_at (sep : ascii) (s : string) : string * list string :=
  match s with
  | EmptyString => (EmptyString, [])
  | String c s' =>
      let '(w, ws) := split_at sep s' in
      if Ascii.eqb c sep then (EmptyString, w :: ws) else (String c w, ws)
  end.

Definition split (sep : ascii) (s : string) : list string :=
  let '(w, ws) := split_at sep s in w :: ws.

(** [rows.join(sep)] *)
Fixpoint join (sep : ascii) (l : list string) : string :=
  match l with
  | [] => EmptyString
  | [w] => w
  | w :: ws => w +:+ String sep (join sep ws)
  end.

(** [/\d/]: the ASCII digits. *)
Definition is_digit (c : ascii) : bool :=
  (48 <=? nat_of_ascii c) && (nat_of_ascii c <=? 57).

(** [parseInt(match, 10)] on a one-digit match. *)
Definition parseInt (c : ascii) : nat := nat_of_ascii c - 48.

(** ['0'.repeat(n)] prepended to [k]. *)
Fixpoint repeat0 (n : nat) (k : string) : string :=
  match n with
  | O => k
  | S n' => String "0" (repeat0 n' k)
  end.

(** [c.toLowerCase()] on one character: the letters A to Z and the capital
    letters of Latin-1 (U+00C0 to U+00DE, without the multiplication sign
    U+00D7) go to the letter 32 places further; every other character
    below U+0100 is its own lower case. *)
Definition toLowerCase (c : ascii) : ascii :=
  let n := nat_of_ascii c in
  if ((65 <=? n) && (n <=? 90))
     || ((192 <=? n) && (n <=? 222) && negb (n =? 215))
  then ascii_of_nat (n + 32) else c.

(** The UTF-16 code units of a string of the model. *)
Definition units (s : string) : list N :=
  map (fun c => N.of_nat (nat_of_ascii c)) (list_ascii_of_string s).

(** [c.toUpperCase()] on one character, as UTF-16 code units, since the
    result can leave the range of the model's characters: a to z and the
    small letters of Latin-1 (U+00E0 to U+00FE, without the division sign
    U+00F7) go to the letter 32 places before; U+00DF gives the two
    letters SS, U+00FF gives U+0178 and U+00B5 gives U+039C; every other
    character below U+0100 is its own upper case. *)
Definition toUpperCase (c : ascii) : list N :=
  let n := nat_of_ascii c in
  if ((97 <=? n) && (n <=? 122))
     || ((224 <=? n) && (n <=? 254) && negb (n =? 247))
  then [N.of_nat (n - 32)]
  else if n =? 223 then [83; 83]%N
  else if n =? 255 then [376]%N
  else if n =? 181 then [924]%N
  else [N.of_nat n].

(** [s[i]]: [None] is [undefined]. *)
Definition char_at (s : string) (i : nat) : option ascii := String.get i s.

(** Truthiness of a value that is a string, or absent ([undefined],
    [null]): only a non-empty string is truthy. *)
Definition truthy (v : option string) : bool :=
  match v with
  | Some (String _ _) => true
  | _ => false
  end.

End Js.

(** ** FEN codec *)

(** [fen.split(' ')[0]]: the piece-placement field. *)
Definition placement (fen : string) : string :=
  default EmptyString (Js.split " " fen !! 0).

(** [fen.split(' ')[1]]: the side to move, [None] when the string has no
    second field. *)
Definition turn_field (fen : string) : option string :=
  Js.split " " fen !! 1.

(** [row.replace(/\d/g, (match) => '0'.repeat(parseInt(match, 10)))] *)
Fixpoint expand_row (row : string) : string :=
  match row with
  | EmptyString => EmptyString
  | String c r =>
      if Js.is_digit c then Js.repeat0 (Js.parseInt c) (expand_row r)
      else String c (expand_row r)
  end.

(** The body of [transformFenToPositionArray] for a given FEN string. *)
Definition positionArray (fen : string) : list string :=
  rev (map expand_row (Js.split "/" (placement fen))).

(** *** The inverse direction, following the specification

    The script has no serializer.  The specification describes one:
    collapse each run of empty markers back to a digit and reverse the rank
    order. *)

(** The digit that stands for a run of [n] empty markers. *)
Definition run_digit (n : nat) : ascii := ascii_of_nat (48 + n).

Definition flush_run (n : nat) (k : string) : string :=
  match n with
  | O => k
  | S _ => String (run_digit n) k
  end.

(** [collapse_from n row]: [n] empty markers are pending in front of [row]. *)
Fixpoint collapse_from (n : nat) (row : string) : string :=
  match row with
  | EmptyString => flush_run n EmptyString
  | String c r =>
      if Ascii.eqb c "0" then collapse_from (S n) r
      else flush_run n (String c (collapse_from 0 r))
  end.

Definition collapse_row (row : string) : string := collapse_from 0 row.

Definition unparse (position : list string) : string :=
  Js.join "/" (rev (map collapse_row position)).

(** *** Syntactic validity of a position field *)

Definition is_letter (c : ascii) : bool :=
  let n := nat_of_ascii c in
  ((65 <=? n) && (n <=? 90)) || ((97 <=? n) && (n <=? 122)).

(** Number of cells a rank describes: a digit [d] stands for [d] cells, any
    other character for one. *)
Fixpoint cells (row : string) : nat :=
  match row with
  | EmptyString => 0
  | String c r => (if Js.is_digit c then Js.parseInt c else 1) + cells r
  end.

Fixpoint digits_and_letters (row : string) : bool :=
  match row with
  | EmptyString => true
  | String c r => (Js.is_digit c || is_letter c) && digits_and_letters r
  end.

(** A rank as the claim describes it: digits and letters summing to 8. *)
Definition valid_rank (row : string) : bool :=
  digits_and_letters row && (cells row =? 8).

(** 8 ranks separated by ['/'], each valid. *)
Definition valid_field (f : string) : bool :=
  let rows := Js.split "/" f in
  (List.length rows =? 8) && forallb valid_rank rows.

(** A rank in canonical form: no digit [0], and no two digits in a row
    (every run of empty cells is written as one digit). *)
Fixpoint canonical_from (after_digit : bool) (row : string) : bool :=
  match row with
  | EmptyString => true
  | String c r =>
      if Js.is_digit c
      then negb after_digit && negb (Ascii.eqb c "0") && canonical_from true r
      else canonical_from false r
  end.

Definition canonical_rank (row : string) : bool := canonical_from false row.

Definition canonical_field (f : string) : bool :=
  forallb canonical_rank (Js.split "/" f).

(** ** The data of the page *)

(** [state.gameState], and what the engine's [isGameOver()] answers:
    ['playing'], ['50-move'], ['stalemate'], ['checkmate']. *)
Inductive GameState := playing | fifty_move | stalemate | checkmate.

Definition terminal (g : GameState) : bool :=
  match g with
  | playing => false
  | _ => true
  end.

(** [state.difficulty] is the number 3 until the settings form stores the
    string of its field. *)
Inductive Difficulty :=
| DNum (n : Z)
| DStr (s : string).

(** [difficultyScale[d]] reads [d] as a property key: a number by its
    decimal text, a string as it is. *)
Definition property_key (d : Difficulty) : string :=
  match d with
  | DNum n => pretty n
  | DStr s => s
  end.

(** The own properties of [difficultyScale]. *)
Definition difficultyScale : gmap string Z :=
  {[ "1" := 2; "2" := 4; "3" := 5; "4" := 7; "5" := 10 ]}%Z.

(** What a lookup in [difficultyScale] can give: [undefined], a number of
    the table, a function inherited from [Object.prototype], or
    [Object.prototype] itself. *)
Inductive Value :=
| undefined
| number (n : Z)
| inherited_function (name : string)
| Object_prototype.

(** The functions every object literal inherits from [Object.prototype]
    in a browser. *)
Definition Object_prototype_functions : list string :=
  [ "constructor"; "__defineGetter__"; "__defineSetter__"; "hasOwnProperty";
    "__lookupGetter__"; "__lookupSetter__"; "isPrototypeOf";
    "propertyIsEnumerable"; "toString"; "valueOf"; "toLocaleString" ].

(** The key names a member that the table inherits: one of the functions,
    or the accessor [__proto__]. *)
Definition inherited (key : string) : bool :=
  String.eqb key "__proto__"
  || existsb (String.eqb key) Object_prototype_functions.

(** [difficultyScale[key]]: an own property first, then the prototype;
    [__proto__] reads the prototype of the table, which is
    [Object.prototype]. *)
Definition difficultyScale_get (key : string) : Value :=
  match difficultyScale !! key with
  | Some n => number n
  | None =>
      if String.eqb key "__proto__" then Object_prototype
      else if existsb (String.eqb key) Object_prototype_functions
      then inherited_function key
      else undefined
  end.

(** The [depth] member in the text of [JSON.stringify(message)]: a number
    is written, [undefined] and a function are left out, and
    [Object.prototype], which has no enumerable property, is written as
    an empty object. *)
Inductive Serialized :=
| left_out
| as_number (n : Z)
| as_empty_object.

Definition stringify_depth (v : Value) : Serialized :=
  match v with
  | undefined => left_out
  | number n => as_number n
  | inherited_function _ => left_out
  | Object_prototype => as_empty_object
  end.

(** The [state] object. [selectedSquare] refers to a square element of the
    document, or is [null]. *)
Record State := {
  gameState : GameState;
  selectedSquare : option nat;
  fen : string;
  playerColour : string;
  difficulty : Difficulty;
  pieceSet : string;
  boardTheme : string;
}.

(** An [img.chess-piece] inside a square. *)
Record Piece := {
  data_piece_colour : string;
  piece_src : list N;
  piece_flip : bool;
}.

(** A [div.chess-square]: its [data-coordinate], its piece image if it has
    one, and whether its class list holds ['selected-square']. *)
Record Square := {
  data_coordinate : string;
  chess_piece : option Piece;
  selected_square : bool;
}.

Inductive Display := display_unset | display_none | display_block.

(** The document: every square element ever created (a reference is an
    index into [elements]), the children of [#chessboard], and the styles
    and text the script sets. *)
Record Page := {
  elements : list Square;
  chessboard : list nat;
  chessboard_flip : bool;
  game_display : Display;
  settings_display : Display;
  gameOver_display : Display;
  gameOver_innerHTML : string;
}.

(** The object handed to [JSON.stringify] and posted to the worker, with
    the value the lookup gave for [depth]; [stringify_depth] tells what
    the posted text holds for it. *)
Record Message := {
  msg_fen : string;
  msg_depth : Value;
}.

(** The worker as the page sees it: what was posted to it so far, and
    whether [onmessage] has been assigned. *)
Record Worker := {
  posted : list Message;
  onmessage : bool;
}.

Record World := {
  state : State;
  page : Page;
  worker : Worker;
}.

(** The four fields the specification calls the game session. *)
Record GameSession := {
  position : string;
  status : GameState;
  colour : string;
  level : Difficulty;
}.

Definition session (w : World) : GameSession :=
  {| position := fen (state w);
     status := gameState (state w);
     colour := playerColour (state w);
     level := difficulty (state w) |}.

(** *** Field updates *)

Definition set_gameState (g : GameState) (s : State) : State :=
  {| gameState := g; selectedSquare := selectedSquare s; fen := fen s;
     playerColour := playerColour s; difficulty := difficulty s;
     pieceSet := pieceSet s; boardTheme := boardTheme s |}.

Definition set_selectedSquare (q : option nat) (s : State) : State :=
  {| gameState := gameState s; selectedSquare := q; fen := fen s;
     playerColour := playerColour s; difficulty := difficulty s;
     pieceSet := pieceSet s; boardTheme := boardTheme s |}.

Definition set_fen (f : string) (s : State) : State :=
  {| gameState := gameState s; selectedSquare := selectedSquare s; fen := f;
     playerColour := playerColour s; difficulty := difficulty s;
     pieceSet := pieceSet s; boardTheme := boardTheme s |}.

Definition set_playerColour (c : string) (s : State) : State :=
  {| gameState := gameState s; selectedSquare := selectedSquare s; fen := fen s;
     playerColour := c; difficulty := difficulty s;
     pieceSet := pieceSet s; boardTheme := boardTheme s |}.

Definition set_difficulty (d : Difficulty) (s : State) : State :=
  {| gameState := gameState s; selectedSquare := selectedSquare s; fen := fen s;
     playerColour := playerColour s; difficulty := d;
     pieceSet := pieceSet s; boardTheme := boardTheme s |}.

Definition set_pieceSet (p : string) (s : State) : State :=
  {| gameState := gameState s; selectedSquare := selectedSquare s; fen := fen s;
     playerColour := playerColour s; difficulty := difficulty s;
     pieceSet := p; boardTheme := boardTheme s |}.

Definition set_boardTheme (b : string) (s : State) : State :=
  {| gameState := gameState s; selectedSquare := selectedSquare s; fen := fen s;
     playerColour := playerColour s; difficulty := difficulty s;
     pieceSet := pieceSet s; boardTheme := b |}.

Definition set_elements (l : list Square) (p : Page) : Page :=
  {| elements := l; chessboard := chessboard p;
     chessboard_flip := chessboard_flip p; game_display := game_display p;
     settings_display := settings_display p;
     gameOver_display := gameOver_display p;
     gameOver_innerHTML := gameOver_innerHTML p |}.

Definition set_chessboard (l : list nat) (p : Page) : Page :=
  {| elements := elements p; chessboard := l;
     chessboard_flip := chessboard_flip p; game_display := game_display p;
     settings_display := settings_display p;
     gameOver_display := gameOver_display p;
     gameOver_innerHTML := gameOver_innerHTML p |}.

Definition set_chessboard_flip (b : bool) (p : Page) : Page :=
  {| elements := elements p; chessboard := chessboard p;
     chessboard_flip := b; game_display := game_display p;
     settings_display := settings_display p;
     gameOver_display := gameOver_display p;
     gameOver_innerHTML := gameOver_innerHTML p |}.

Definition set_game_display (d : Display) (p : Page) : Page :=
  {| elements := elements p; chessboard := chessboard p;
     chessboard_flip := chessboard_flip p; game_display := d;
     settings_display := settings_display p;
     gameOver_display := gameOver_display p;
     gameOver_innerHTML := gameOver_innerHTML p |}.

Definition set_settings_display (d : Display) (p : Page) : Page :=
  {| elements := elements p; chessboard := chessboard p;
     chessboard_flip := chessboard_flip p; game_display := game_display p;
     settings_display := d;
     gameOver_display := gameOver_display p;
     gameOver_innerHTML := gameOver_innerHTML p |}.

Definition set_gameOver_display (d : Display) (p : Page) : Page :=
  {| elements := elements p; chessboard := chessboard p;
     chessboard_flip := chessboard_flip p; game_display := game_display p;
     settings_display := settings_display p;
     gameOver_display := d;
     gameOver_innerHTML := gameOver_innerHTML p |}.

Definition set_gameOver_innerHTML (t : string) (p : Page) : Page :=
  {| elements := elements p; chessboard := chessboard p;
     chessboard_flip := chessboard_flip p; game_display := game_display p;
     settings_display := settings_display p;
     gameOver_display := gameOver_display p;
     gameOver_innerHTML := t |}.

Definition on_state (f : State -> State) (w : World) : World :=
  {| state := f (state w); page := page w; worker := worker w |}.

Definition on_page (f : Page -> Page) (w : World) : World :=
  {| state := state w; page := f (page w); worker := worker w |}.

Definition on_worker (f : Worker -> Worker) (w : World) : World :=
  {| state := state w; page := page w; worker := f (worker w) |}.

(** ** Handlers: state transformers that may throw

    A function of the script runs on the world and either completes or
    ends in an uncaught [TypeError]; what it wrote before the error
    stays written. *)

Inductive Completion (A : Type) :=
| Normal (a : A)
| TypeError.
Arguments Normal {A} a.
Arguments TypeError {A}.

Definition M (A : Type) : Type := World -> Completion A * World.

Definition ret {A} (a : A) : M A := fun w => (Normal a, w).

Definition bind {A B} (m : M A) (k : A -> M B) : M B :=
  fun w =>
    match m w with
    | (Normal a, w') => k a w'
    | (TypeError, w') => (TypeError, w')
    end.

Definition throw {A} : M A := fun w => (TypeError, w).

Definition gets {A} (f : World -> A) : M A := fun w => (Normal (f w), w).

Definition modify (f : World -> World) : M unit := fun w => (Normal tt, f w).

Declare Scope js_scope.
Delimit Scope js_scope with js.
Notation "'let*' x ':=' m 'in' k" := (bind m (fun x => k))
  (at level 10, x name, m at level 100, k at level 200) : js_scope.
Notation "m ';;;' k" := (bind m (fun _ => k))
  (at level 100, k at level 200, right associativity) : js_scope.

(** [if (c) stmt] *)
Definition when_ (c : bool) (m : M unit) : M unit :=
  if c then m else ret tt.

(** A [for] loop over the values its counter takes. *)
Fixpoint for_each {A} (l : list A) (body : A -> M unit) : M unit :=
  match l with
  | [] => ret tt
  | a :: l' => bind (body a) (fun _ => for_each l' body)
  end.

(** ** The chess engine

    [ChessEngineAPI] of the engine bundle, as the script uses it: an object
    built from a FEN string, [applyMove] changing it, [getFen] and
    [isGameOver] reading it. *)
Class ChessEngineAPI := {
  engine : Type;
  new_ChessEngineAPI : string -> engine;
  applyMove : engine -> string -> engine;
  getFen : engine -> string;
  isGameOver : engine -> GameState;
}.

(** The fields of the settings form after
    [Object.fromEntries(settingsForm.entries())]; [None] is a field the
    form does not have. *)
Record FormData := {
  form_playerColour : option string;
  form_difficulty : option string;
  form_fen : option string;
  form_pieceSet : option string;
  form_boardTheme : option string;
}.

(** What happens to the page: the settings form is submitted, a square of
    the board is clicked, the worker sends a message. *)
Inductive Event :=
| Submit (form : FormData)
| Click (coordinate : string)
| Reply (data : option string).

Section Controller.
Context {E : ChessEngineAPI}.
Local Open Scope js_scope.

(** The page as the script finds it. *)
Definition initial : World :=
  {| state :=
       {| gameState := playing;
          selectedSquare := None;
          fen := "rnbqkbnr/pppppppp/8/8/8/8/PPPPPPPP/RNBQKBNR w KQkq - 0 1";
          playerColour := "w";
          difficulty := DNum 3;
          pieceSet := "open-chess-font";
          boardTheme := "dark" |};
     page :=
       {| elements := [];
          chessboard := [];
          chessboard_flip := false;
          game_display := display_unset;
          settings_display := display_unset;
          gameOver_display := display_unset;
          gameOver_innerHTML := "" |};
     worker := {| posted := []; onmessage := false |} |}.

Definition getTurn (w : World) : option string :=
  turn_field (fen (state w)).

Definition transformFenToPositionArray (w : World) : list string :=
  positionArray (fen (state w)).

(** *** Elements *)

(** The element a reference points to. Every reference the script holds
    comes from [appendChild] below, so the default is never read. *)
Definition blank_square : Square :=
  {| data_coordinate := ""; chess_piece := None; selected_square := false |}.

Definition element (w : World) (ref : nat) : Square :=
  default blank_square (elements (page w) !! ref).

(** [square.getAttribute('data-coordinate')] *)
Definition coordinate_of (w : World) (ref : nat) : string :=
  data_coordinate (element w ref).

(** [square.querySelector('.chess-piece')] *)
Definition piece_of (w : World) (ref : nat) : option Piece :=
  chess_piece (element w ref).

Definition with_class (b : bool) (q : Square) : Square :=
  {| data_coordinate := data_coordinate q;
     chess_piece := chess_piece q;
     selected_square := b |}.

Definition update_element (ref : nat) (f : Square -> Square) : M unit :=
  modify (on_page (fun p => set_elements (alter f ref (elements p)) p)).

(** [square.classList.toggle('selected-square')] *)
Definition toggleSquareHighlight (square : nat) : M unit :=
  update_element square (fun q => with_class (negb (selected_square q)) q).

(** [square.classList.remove('selected-square')] *)
Definition removeHighlight (square : nat) : M unit :=
  update_element square (with_class false).

(** [board.appendChild(square)] for a square just created. *)
Definition appendChild (q : Square) : M unit :=
  modify (on_page (fun p =>
    set_chessboard (chessboard p ++ [List.length (elements p)])
      (set_elements (elements p ++ [q]) p))).

(** *** renderBoard *)

Definition files : list string := ["a"; "b"; "c"; "d"; "e"; "f"; "g"; "h"].

(** The body of the inner loop. Reading [position[row-1][col]] throws
    when the position has no such row; a row too short gives [undefined],
    on which [toLowerCase] throws. *)
Definition render_square (position : list string) (row col : nat) : M unit :=
  let coordinate := default "undefined" (files !! col) +:+ pretty row in
  match position !! (row - 1) with
  | None => throw
  | Some r =>
      match Js.char_at r col with
      | None => throw
      | Some pieceChar =>
          if Ascii.eqb pieceChar "0" then
            appendChild {| data_coordinate := coordinate;
                           chess_piece := None;
                           selected_square := false |}
          else
            let* colour_b := gets (fun w => String.eqb (playerColour (state w)) "b") in
            let* set := gets (fun w => pieceSet (state w)) in
            let pieceColour :=
              if Ascii.eqb (Js.toLowerCase pieceChar) pieceChar then "b" else "w" in
            appendChild
              {| data_coordinate := coordinate;
                 chess_piece :=
                   Some {| data_piece_colour := pieceColour;
                           piece_src :=
                             (Js.units "./chess-pieces/" ++ Js.units set
                              ++ Js.units "/" ++ Js.units pieceColour
                              ++ Js.toUpperCase pieceChar
                              ++ Js.units ".svg")%list;
                           piece_flip := colour_b |};
                 selected_square := false |}
      end
  end.

(** The two nested loops: rows 8 down to 1, columns 0 up to 7. *)
Definition render_squares (position : list string) : M unit :=
  for_each [8; 7; 6; 5; 4; 3; 2; 1] (fun row =>
    for_each [0; 1; 2; 3; 4; 5; 6; 7] (fun col =>
      render_square position row col)).

(** The end of [renderBoard]: hide the game and show the result, unless the
    game is still being played. *)
Definition show_game_over : M unit :=
  modify (on_page (set_game_display display_none)) ;;;
  modify (on_page (set_gameOver_display display_block)) ;;;
  let* g := gets (fun w => gameState (state w)) in
  match g with
  | checkmate =>
      let* t := gets getTurn in
      let winner := if decide (t = Some "w") then "BLACK" else "WHITE" in
      modify (on_page (set_gameOver_innerHTML (winner +:+ "WINS (checkmate)")))
  | stalemate =>
      modify (on_page (set_gameOver_innerHTML "DRAW (stalemate)"))
  | fifty_move =>
      modify (on_page (set_gameOver_innerHTML "DRAW (50-move rule)"))
  | playing =>
      modify (on_page (set_game_display display_block)) ;;;
      modify (on_page (set_gameOver_display display_none))
  end.

Definition renderBoard : M unit :=
  modify (on_page (set_chessboard [])) ;;;
  let* position := gets transformFenToPositionArray in
  let* colour_b := gets (fun w => String.eqb (playerColour (state w)) "b") in
  when_ colour_b (modify (on_page (set_chessboard_flip true))) ;;;
  render_squares position ;;;
  show_game_over.

(** *** Moves *)

Definition isValidMove (moveNotation : string) (w : World) : bool :=
  let engine := applyMove (new_ChessEngineAPI (fen (state w))) moveNotation in
  negb (String.eqb (placement (getFen engine)) (placement (fen (state w)))).

Definition makeMove (moveNotation : string) : M unit :=
  let* engine := gets (fun w =>
    applyMove (new_ChessEngineAPI (fen (state w))) moveNotation) in
  let* selected := gets (fun w => selectedSquare (state w)) in
  match selected with
  | Some q => removeHighlight q
  | None => ret tt
  end ;;;
  modify (on_state (set_selectedSquare None)) ;;;
  modify (on_state (set_fen (getFen engine))) ;;;
  modify (on_state (set_gameState (isGameOver engine))) ;;;
  renderBoard.

Definition makeComputerMove : M unit :=
  let* message := gets (fun w =>
    {| msg_fen := fen (state w);
       msg_depth := difficultyScale_get (property_key (difficulty (state w))) |}) in
  modify (on_worker (fun k =>
    {| posted := posted k ++ [message]; onmessage := onmessage k |})) ;;;
  modify (on_worker (fun k =>
    {| posted := posted k; onmessage := true |})).

(** The function assigned to [chessWorker.onmessage]. *)
Definition onmessage_handler (data : option string) : M unit :=
  match data with
  | Some (String c m) => makeMove (String c m)
  | _ => ret tt
  end.

Definition handleSquareClick (square : nat) : M unit := fun w =>
  if negb (bool_decide (getTurn w = Some (playerColour (state w))))
  then ret tt w
  else
    let clickedCoordinate := coordinate_of w square in
    let piece := piece_of w square in
    match selectedSquare (state w) with
    | None =>
        match piece with
        | Some _ =>
            (toggleSquareHighlight square ;;;
             modify (on_state (set_selectedSquare (Some square)))) w
        | None => ret tt w
        end
    | Some selected =>
        let existingCoordinate := coordinate_of w selected in
        let move := existingCoordinate +:+ clickedCoordinate in
        if isValidMove move w then
          (makeMove move ;;; makeComputerMove) w
        else if String.eqb existingCoordinate clickedCoordinate then
          toggleSquareHighlight square w
        else if bool_decide (data_piece_colour <$> piece
                             = Some (playerColour (state w))) then
          (toggleSquareHighlight selected ;;;
           toggleSquareHighlight square ;;;
           modify (on_state (set_selectedSquare (Some square)))) w
        else
          (toggleSquareHighlight selected ;;;
           modify (on_state (set_selectedSquare None))) w
    end.

(** The [submit] listener of the settings form. *)
Definition submit (form : FormData) : M unit :=
  let store (v : option string) (set : string -> State -> State) : M unit :=
    match v with
    | Some (String c s) => modify (on_state (set (String c s)))
    | _ => ret tt
    end in
  store (form_playerColour form) set_playerColour ;;;
  store (form_difficulty form) (fun d => set_difficulty (DStr d)) ;;;
  store (form_fen form) set_fen ;;;
  store (form_pieceSet form) set_pieceSet ;;;
  store (form_boardTheme form) set_boardTheme ;;;
  modify (on_page (set_settings_display display_none)) ;;;
  modify (on_page (set_game_display display_block)) ;;;
  renderBoard ;;;
  let* colour_b := gets (fun w => String.eqb (playerColour (state w)) "b") in
  when_ colour_b makeComputerMove.

(** *** The event loop *)

(** The square of the board that carries a coordinate. *)
Definition find_square (w : World) (coordinate : string) : option nat :=
  snd <$> list_find (fun ref => String.eqb (coordinate_of w ref) coordinate = true)
             (chessboard (page w)).

(** The listener an event reaches. A click reaches the listener of the
    square with that coordinate if the board has one; a message reaches
    [onmessage] once it is assigned. *)
Definition listener (e : Event) : M unit := fun w =>
  match e with
  | Submit form => submit form w
  | Click coordinate =>
      match find_square w coordinate with
      | Some square => handleSquareClick square w
      | None => ret tt w
      end
  | Reply data =>
      if onmessage (worker w) then onmessage_handler data w else ret tt w
  end.

(** An uncaught error ends the listener; the page keeps what was written. *)
Definition dispatch (w : World) (e : Event) : World := snd (listener e w).

Definition run (events : list Event) : World := foldl dispatch initial events.

Definition reachable (w : World) : Prop := exists events, w = run events.

End Controller.

(** ** A test engine

    An engine for the examples: it answers from a table that holds the four
    plies of the fool's mate and the move e2e4 from the starting position,
    each with the position the rules of chess give; any other move leaves
    the position as it is, as for a move the rules do not allow.  Its
    game-over query knows the mate that ends the line. *)
Module FoolsMate.

Definition start : string :=
  "rnbqkbnr/pppppppp/8/8/8/8/PPPPPPPP/RNBQKBNR w KQkq - 0 1".
Definition after_f3 : string :=
  "rnbqkbnr/pppppppp/8/8/8/5P2/PPPPP1PP/RNBQKBNR b KQkq - 0 1".
Definition after_e5 : string :=
  "rnbqkbnr/pppp1ppp/8/4p3/8/5P2/PPPPP1PP/RNBQKBNR w KQkq e6 0 2".
Definition after_g4 : string :=
  "rnbqkbnr/pppp1ppp/8/4p3/6P1/5P2/PPPPP2P/RNBQKBNR b KQkq g3 0 2".
Definition mate : string :=
  "rnb1kbnr/pppp1ppp/8/4p3/6Pq/5P2/PPPPP2P/RNBQKBNR w KQkq - 1 3".
Definition after_e4 : string :=
  "rnbqkbnr/pppppppp/8/8/4P3/8/PPPP1PPP/RNBQKBNR b KQkq e3 0 1".

Definition book : list (string * string * string) :=
  [ (start, "f2f3", after_f3);
    (after_f3, "e7e5", after_e5);
    (after_e5, "g2g4", after_g4);
    (after_g4, "d8h4", mate);
    (start, "e2e4", after_e4) ].

Fixpoint lookup_book (b : list (string * string * string))
    (position move : string) : string :=
  match b with
  | [] => position
  | (p, m, p') :: b' =>
      if String.eqb p position && String.eqb m move then p'
      else lookup_book b' position move
  end.

Definition over (position : string) : GameState :=
  if String.eqb position mate then checkmate else playing.

#[export] Instance api : ChessEngineAPI :=
  {| engine := string;
     new_ChessEngineAPI := fun fen => fen;
     applyMove := lookup_book book;
     getFen := fun position => position;
     isGameOver := over |}.

(** A form submitted as it is, and one that chooses the black pieces. *)
Definition no_choice : FormData :=
  {| form_playerColour := None; form_difficulty := None; form_fen := None;
     form_pieceSet := None; form_boardTheme := None |}.

Definition play_black : FormData :=
  {| form_playerColour := Some "b"; form_difficulty := None;
     form_fen := None; form_pieceSet := None; form_boardTheme := None |}.

(** A form that sets up the mated position with the player as black. *)
Definition black_from_mate : FormData :=
  {| form_playerColour := Some "b"; form_difficulty := None;
     form_fen := Some mate; form_pieceSet := None; form_boardTheme := None |}.

(** A form that chooses the black pieces and gives the difficulty the
    text [__proto__]. *)
Definition black_with_proto : FormData :=
  {| form_playerColour := Some "b"; form_difficulty := Some "__proto__";
     form_fen := None; form_pieceSet := None; form_boardTheme := None |}.

(** The player, as white, is mated by the replies of the worker. *)
Definition white_is_mated : list Event :=
  [ Submit no_choice; Click "f2"; Click "f3"; Reply (Some "e7e5");
    Click "g2"; Click "g4"; Reply (Some "d8h4") ].

(** The player, as black, has armed the queen and mates with the next
    click on h4. *)
Definition black_to_mate : list Event :=
  [ Submit play_black; Reply (Some "f2f3"); Click "e7"; Click "e5";
    Reply (Some "g2g4"); Click "d8" ].

(** The player, as white, has armed e2. *)
Definition e2_armed : list Event := [ Submit no_choice; Click "e2" ].

End FoolsMate.

(** ** Vocabulary of the properties *)

(** The depth table in the words of the specification:
    1 → 2, 2 → 4, 3 → 5, 4 → 7, 5 → 10. *)
Definition spec_depth (n : Z) : Z :=
  match n with
  | 1 => 2
  | 2 => 4
  | 3 => 5
  | 4 => 7
  | 5 => 10
  | _ => 0
  end%Z.

(** [d] is the difficulty [n]: the number itself, or its decimal text as
    the settings form delivers it. *)
Definition names_level (d : Difficulty) (n : Z) : Prop :=
  d = DNum n \/ d = DStr (pretty n).

(** The board can be drawn from [fen]: the position array has rows 0 to 7
    and each of them has cells 0 to 7. *)
Definition renderable (fen : string) : bool :=
  forallb (fun i =>
             match positionArray fen !! i with
             | Some r => 8 <=? String.length r
             | None => false
             end)
          [7; 6; 5; 4; 3; 2; 1; 0].

(** The engine after the move, as [isValidMove] and [makeMove] build it:
    [new ChessEngineAPI(state.fen)] followed by [applyMove]. *)
Definition moved {E : ChessEngineAPI} (w : World) (moveNotation : string)
  : engine :=
  applyMove (new_ChessEngineAPI (fen (state w))) moveNotation.

(** A computation that writes to the document only. *)
Definition page_only {A} (m : M A) : Prop :=
  forall w, state (snd (m w)) = state w /\ worker (snd (m w)) = worker w.

(** Two worlds that differ at most in [state.gameState]. *)
Definition same_but_status (w1 w2 : World) : Prop :=
  page w1 = page w2 /\ worker w1 = worker w2 /\
  set_gameState playing (state w1) = set_gameState playing (state w2).

(** Every reference the script holds (the children of the board, the
    selected square) points to an element that exists. *)
Definition allocated (w : World) : Prop :=
  (forall ref, ref ∈ chessboard (page w) -> ref < List.length (elements (page w)))
  /\ (forall ref, selectedSquare (state w) = Some ref ->
        ref < List.length (elements (page w))).

(** A computation that keeps a property of the world, also when it ends in
    an error. *)
Definition preserves {A} (J : World -> Prop) (m : M A) : Prop :=
  forall w, J w -> J (snd (m w)).

(** *** Vocabulary of the further properties *)

(** The characters of a rank that are not digits: its piece letters, in
    order. *)
Fixpoint letters (row : string) : string :=
  match row with
  | EmptyString => EmptyString
  | String c r => if Js.is_digit c then letters r else String c (letters r)
  end.

(** Every digit of the string is the empty marker ['0']. *)
Fixpoint digits_are_markers (row : string) : bool :=
  match row with
  | EmptyString => true
  | String c r => (negb (Js.is_digit c) || Ascii.eqb c "0") && digits_are_markers r
  end.

(** The character occurs in the string. *)
Fixpoint contains (c : ascii) (s : string) : bool :=
  match s with
  | EmptyString => false
  | String c' s' => Ascii.eqb c' c || contains c s'
  end.

(** [position[row-1][col]]: [None] where the script would throw. *)
Definition cell (position : list string) (row col : nat) : option ascii :=
  position !! (row - 1) ≫= fun r => Js.char_at r col.

(** The piece image [renderBoard] puts on a square for the character of
    its cell: none for the empty marker, else black for a character that is
    its own lower case and white otherwise. *)
Definition piece_image (st : State) (pieceChar : ascii) : option Piece :=
  if Ascii.eqb pieceChar "0" then None
  else
    let pieceColour :=
      if Ascii.eqb (Js.toLowerCase pieceChar) pieceChar then "b" else "w" in
    Some {| data_piece_colour := pieceColour;
            piece_src :=
              (Js.units "./chess-pieces/" ++ Js.units (pieceSet st)
               ++ Js.units "/" ++ Js.units pieceColour
               ++ Js.toUpperCase pieceChar
               ++ Js.units ".svg")%list;
            piece_flip := String.eqb (playerColour st) "b" |}.

(** The square [renderBoard] creates for rank [row] and file [col]. *)
Definition drawn_square (st : State) (position : list string)
    (row col : nat) : Square :=
  {| data_coordinate := default "undefined" (files !! col) +:+ pretty row;
     chess_piece := cell position row col ≫= piece_image st;
     selected_square := false |}.

(** The 64 squares in the order of the two loops. *)
Definition drawn (st : State) (position : list string) : list Square :=
  flat_map (fun row => map (drawn_square st position row) [0; 1; 2; 3; 4; 5; 6; 7])
           [8; 7; 6; 5; 4; 3; 2; 1].

(** [appendChild] for each square of a list, in order. *)
Definition append_all (qs : list Square) (w : World) : World :=
  on_page (fun p =>
    set_chessboard (chessboard p ++ seq (List.length (elements p)) (List.length qs))
      (set_elements (elements p ++ qs) p)) w.

(** The text [renderBoard] leaves in the game-over container. *)
Definition game_over_text (w : World) : string :=
  match gameState (state w) with
  | checkmate =>
      (if decide (getTurn w = Some "w") then "BLACK" else "WHITE")
      +:+ "WINS (checkmate)"
  | stalemate => "DRAW (stalemate)"
  | fifty_move => "DRAW (50-move rule)"
  | playing => gameOver_innerHTML (page w)
  end.

(** No child of the board carries the class ['selected-square']. *)
Definition no_highlight (w : World) : Prop :=
  forall ref, ref ∈ chessboard (page w) ->
    selected_square <$> elements (page w) !! ref = Some false.

(** [if (v) state.x = v] on the value of one form field. *)
Definition stored (v : option string) (old : string) : string :=
  match v with
  | Some (String c s) => String c s
  | _ => old
  end.

(** The request [makeComputerMove] builds in a state. *)
Definition request_of (st : State) : Message :=
  {| msg_fen := fen st;
     msg_depth := difficultyScale_get (property_key (difficulty st)) |}.

(** The worker after one more request. *)
Definition with_request (m : Message) (k : Worker) : Worker :=
  {| posted := posted k ++ [m]; onmessage := true |}.

(** What only the settings form writes. *)
Definition settings (st : State) : string * Difficulty * string * string :=
  (playerColour st, difficulty st, pieceSet st, boardTheme st).

(** The squares of the board as elements, their highlight set aside. *)
Definition board_squares (w : World) : list Square :=
  map (fun ref => with_class false (element w ref)) (chessboard (page w)).

(** The board shows the position of the state: its squares are the ones
    [renderBoard] draws from the current FEN, piece set and player colour
    (all of them, or those drawn before an error ended the drawing), and
    each child of the board is an element that exists. *)
Definition board_shows_position (w : World) : Prop :=
  board_squares w `prefix_of` drawn (state w) (positionArray (fen (state w)))
  /\ forall ref, ref ∈ chessboard (page w) ->
       ref < List.length (elements (page w)).

(** The selected square, when there is one, is a child of the board. *)
Definition selection_on_board (w : World) : Prop :=
  forall ref, selectedSquare (state w) = Some ref -> ref ∈ chessboard (page w).

Definition is_submit (e : Event) : bool :=
  match e with
  | Submit _ => true
  | _ => false
  end.

(** ** The FEN codec *)

Section Codec.

Lemma join_split sep s : Js.join sep (Js.split sep s) = s.
Proof.
  unfold Js.split.
  induction s as [|c s IH]; simpl; [reflexivity|].
  destruct (Js.split_at sep s) as [w ws] eqn:Hs.
  destruct (Ascii.eqb_spec c sep) as [->|Hne].
  - rewrite <- IH. now destruct ws.
  - rewrite <- IH. now destruct ws.
Qed.

Lemma run_digit_parseInt c :
  Js.is_digit c = true -> run_digit (Js.parseInt c) = c.
Proof.
  unfold Js.is_digit, run_digit, Js.parseInt. intros H.
  apply andb_prop in H as [H1 _]. apply Nat.leb_le in H1.
  replace (48 + (nat_of_ascii c - 48)) with (nat_of_ascii c) by lia.
  apply ascii_nat_embedding.
Qed.

Lemma parseInt_positive c :
  Js.is_digit c = true -> Ascii.eqb c "0" = false -> 0 < Js.parseInt c.
Proof.
  unfold Js.is_digit, Js.parseInt. intros H Hz.
  apply andb_prop in H as [H1 _]. apply Nat.leb_le in H1.
  destruct (Nat.eq_dec (nat_of_ascii c) 48) as [Heq|Hne]; [|lia].
  apply Ascii.eqb_neq in Hz. exfalso. apply Hz.
  rewrite <- (ascii_nat_embedding c), Heq. reflexivity.
Qed.

Lemma not_digit_not_marker c :
  Js.is_digit c = false -> Ascii.eqb c "0" = false.
Proof.
  intros H. apply Ascii.eqb_neq. intros ->. discriminate H.
Qed.

Lemma collapse_repeat0 d n k :
  collapse_from n (Js.repeat0 d k) = collapse_from (d + n) k.
Proof.
  revert n. induction d as [|d IH]; intros n; simpl; [reflexivity|].
  rewrite IH. f_equal. lia.
Qed.

(** Collapsing the expansion of a canonical rank gives the rank back, after
    the digit for the markers still pending. Markers can only be pending
    when the rank continues after a digit. *)
Lemma collapse_expand_from row :
  forall b n, canonical_from b row = true -> (b = false -> n = 0) ->
    collapse_from n (expand_row row) = flush_run n row.
Proof.
  induction row as [|c r IH]; intros b n Hc Hn; simpl; [reflexivity|].
  simpl in Hc. destruct (Js.is_digit c) eqn:Hd.
  - apply andb_prop in Hc as [Hc Hr]. apply andb_prop in Hc as [Hb Hz].
    apply negb_true_iff in Hb, Hz. rewrite (Hn Hb).
    rewrite collapse_repeat0, Nat.add_0_r.
    rewrite (IH true _ Hr) by discriminate.
    pose proof (parseInt_positive c Hd Hz) as Hpos.
    destruct (Js.parseInt c) as [|m] eqn:Hp; [lia|].
    simpl. rewrite <- Hp, run_digit_parseInt by assumption. reflexivity.
  - simpl. rewrite (not_digit_not_marker c Hd).
    rewrite (IH false 0 Hc) by reflexivity. reflexivity.
Qed.

Lemma collapse_expand row :
  canonical_rank row = true -> collapse_row (expand_row row) = row.
Proof.
  intros H. unfold collapse_row.
  now rewrite (collapse_expand_from row false 0 H).
Qed.

Lemma collapse_expand_rows rows :
  forallb canonical_rank rows = true ->
  map collapse_row (map expand_row rows) = rows.
Proof.
  induction rows as [|r rows IH]; simpl; [reflexivity|].
  intros H. apply andb_prop in H as [Hr Hrows].
  now rewrite collapse_expand, IH.
Qed.

(** The round trip needs nothing but the canonical form of the ranks. *)
Lemma unparse_positionArray fen :
  canonical_field (placement fen) = true ->
  unparse (positionArray fen) = placement fen.
Proof.
  intros H. unfold unparse, positionArray.
  rewrite map_rev, rev_involutive, collapse_expand_rows by exact H.
  apply join_split.
Qed.

End Codec.

(** C7, as the claim words it, fails: a rank may spell a run of empty cells
    with two digits. The field 44/8/8/8/8/8/8/8 has 8 ranks of digits and
    letters, each summing to 8 cells, and comes back as 8/8/8/8/8/8/8/8. *)
Lemma C7_two_digit_run_is_not_restored :
  valid_field "44/8/8/8/8/8/8/8" = true /\
  placement "44/8/8/8/8/8/8/8 w - - 0 1" = "44/8/8/8/8/8/8/8" /\
  unparse (positionArray "44/8/8/8/8/8/8/8 w - - 0 1") = "8/8/8/8/8/8/8/8" /\
  unparse (positionArray "44/8/8/8/8/8/8/8 w - - 0 1")
    <> placement "44/8/8/8/8/8/8/8 w - - 0 1".
Proof. repeat split; try reflexivity. discriminate. Qed.

(** C7, amended: for every position field of 8 ranks separated by '/',
    each rank made of digits and letters summing to 8 cells, in which every
    run of empty cells is written as one digit other than 0 (no two digits
    stand side by side), expanding the digits and reversing the ranks
    ([transformFenToPositionArray]) and then collapsing the runs of empty
    markers and reversing the ranks again gives the field back. *)
Theorem C7_round_trip_of_canonical_fields (fen : string) :
  valid_field (placement fen) = true ->
  canonical_field (placement fen) = true ->
  unparse (positionArray fen) = placement fen.
Proof. intros _ H. now apply unparse_positionArray. Qed.

Lemma C7_round_trip_witness :
  unparse (positionArray FoolsMate.mate) = placement FoolsMate.mate.
Proof.
  apply (C7_round_trip_of_canonical_fields FoolsMate.mate); reflexivity.
Defined.
(** ** The controller *)

Section ControllerFacts.
Context {E : ChessEngineAPI}.

(** *** Computations that write to the document only *)

Lemma page_only_ret {A} (a : A) : page_only (ret a).
Proof. intros w. now split. Qed.

Lemma page_only_throw {A} : page_only (@throw A).
Proof. intros w. now split. Qed.

Lemma page_only_gets {A} (f : World -> A) : page_only (gets f).
Proof. intros w. now split. Qed.

Lemma page_only_modify (f : Page -> Page) : page_only (modify (on_page f)).
Proof. intros w. now split. Qed.

Lemma page_only_bind {A B} (m : M A) (k : A -> M B) :
  page_only m -> (forall a, page_only (k a)) -> page_only (bind m k).
Proof.
  intros Hm Hk w. unfold bind. specialize (Hm w).
  destruct (m w) as [[a|] w']; simpl in *; [|exact Hm].
  destruct (Hk a w') as [Hs Hw], Hm as [Hs' Hw']. split; congruence.
Qed.

Lemma page_only_when (c : bool) (m : M unit) :
  page_only m -> page_only (when_ c m).
Proof. destruct c; simpl; [trivial|intros _; apply page_only_ret]. Qed.

Lemma page_only_for_each {A} (l : list A) (body : A -> M unit) :
  (forall a, page_only (body a)) -> page_only (for_each l body).
Proof.
  intros Hb. induction l as [|a l IH]; simpl.
  - apply page_only_ret.
  - apply page_only_bind; [apply Hb|intros _; exact IH].
Qed.

Lemma page_only_appendChild q : page_only (appendChild q).
Proof. apply page_only_modify. Qed.

Lemma page_only_update_element ref f : page_only (update_element ref f).
Proof. apply page_only_modify. Qed.

Lemma page_only_render_square position row col :
  page_only (render_square position row col).
Proof.
  unfold render_square.
  destruct (position !! (row - 1)) as [r|]; [|apply page_only_throw].
  destruct (Js.char_at r col) as [c|]; [|apply page_only_throw].
  destruct (Ascii.eqb c "0"); [apply page_only_appendChild|].
  apply page_only_bind; [apply page_only_gets|intros b].
  apply page_only_bind; [apply page_only_gets|intros t].
  apply page_only_appendChild.
Qed.

Lemma page_only_show_game_over : page_only show_game_over.
Proof.
  unfold show_game_over.
  apply page_only_bind; [apply page_only_modify|intros _].
  apply page_only_bind; [apply page_only_modify|intros _].
  apply page_only_bind; [apply page_only_gets|intros g].
  destruct g.
  - apply page_only_bind; [apply page_only_modify|intros _].
    apply page_only_modify.
  - apply page_only_modify.
  - apply page_only_modify.
  - apply page_only_bind; [apply page_only_gets|intros t].
    apply page_only_modify.
Qed.

Lemma page_only_renderBoard : page_only renderBoard.
Proof.
  unfold renderBoard, render_squares.
  apply page_only_bind; [apply page_only_modify|intros _].
  apply page_only_bind; [apply page_only_gets|intros position].
  apply page_only_bind; [apply page_only_gets|intros b].
  apply page_only_bind; [apply page_only_when, page_only_modify|intros _].
  apply page_only_bind; [|intros _; apply page_only_show_game_over].
  apply page_only_for_each. intros row.
  apply page_only_for_each. intros col.
  apply page_only_render_square.
Qed.

(** *** makeMove *)

Lemma makeMove_unfold moveNotation w :
  makeMove moveNotation w =
  renderBoard
    (on_state (set_gameState (isGameOver (moved w moveNotation)))
       (on_state (set_fen (getFen (moved w moveNotation)))
          (on_state (set_selectedSquare None)
             (match selectedSquare (state w) with
              | Some q => snd (removeHighlight q w)
              | None => w
              end)))).
Proof.
  unfold makeMove, bind, gets, modify. simpl.
  destruct (selectedSquare (state w)); reflexivity.
Qed.

Lemma makeMove_state moveNotation w :
  state (snd (makeMove moveNotation w)) =
  set_gameState (isGameOver (moved w moveNotation))
    (set_fen (getFen (moved w moveNotation))
       (set_selectedSquare None (state w))).
Proof.
  rewrite makeMove_unfold.
  destruct (page_only_renderBoard
    (on_state (set_gameState (isGameOver (moved w moveNotation)))
       (on_state (set_fen (getFen (moved w moveNotation)))
          (on_state (set_selectedSquare None)
             (match selectedSquare (state w) with
              | Some q => snd (removeHighlight q w)
              | None => w
              end))))) as [-> _].
  destruct (selectedSquare (state w)); reflexivity.
Qed.

Lemma makeMove_worker moveNotation w :
  worker (snd (makeMove moveNotation w)) = worker w.
Proof.
  rewrite makeMove_unfold.
  destruct (page_only_renderBoard
    (on_state (set_gameState (isGameOver (moved w moveNotation)))
       (on_state (set_fen (getFen (moved w moveNotation)))
          (on_state (set_selectedSquare None)
             (match selectedSquare (state w) with
              | Some q => snd (removeHighlight q w)
              | None => w
              end))))) as [_ ->].
  destruct (selectedSquare (state w)); reflexivity.
Qed.

Lemma makeMove_fen moveNotation w :
  fen (state (snd (makeMove moveNotation w))) = getFen (moved w moveNotation).
Proof. now rewrite makeMove_state. Qed.

(** *** When drawing the board completes *)

Lemma bind_apply {A B} (m : M A) (k : A -> M B) w :
  bind m k w =
  match m w with
  | (Normal a, w') => k a w'
  | (TypeError, w') => (TypeError, w')
  end.
Proof. reflexivity. Qed.

Lemma bind_normal {A B} (m : M A) (k : A -> M B) w a :
  fst (m w) = Normal a -> bind m k w = k a (snd (m w)).
Proof.
  intros H. rewrite bind_apply. destruct (m w) as [[a'|] w']; simpl in *.
  - congruence.
  - discriminate.
Qed.

Lemma for_each_normal {A} (l : list A) (body : A -> M unit) :
  (forall a, a ∈ l -> forall w, fst (body a w) = Normal tt) ->
  forall w, fst (for_each l body w) = Normal tt.
Proof.
  induction l as [|a l IH]; intros Hb w; simpl; [reflexivity|].
  rewrite (bind_normal _ _ w tt) by (apply Hb; left).
  apply IH. intros a' Ha'. apply Hb. now right.
Qed.

Lemma get_in_range r : forall i, i < String.length r -> is_Some (String.get i r).
Proof.
  induction r as [|c r IH]; intros i Hi; simpl in *; [lia|].
  destruct i as [|i]; [eauto|]. apply IH. lia.
Qed.

Lemma render_square_normal position row col r :
  position !! (row - 1) = Some r -> col < String.length r ->
  forall w, fst (render_square position row col w) = Normal tt.
Proof.
  intros Hr Hc w. unfold render_square. rewrite Hr.
  destruct (get_in_range r col Hc) as [c Hget].
  unfold Js.char_at. rewrite Hget.
  destruct (Ascii.eqb c "0"); reflexivity.
Qed.

Lemma renderable_row fen i :
  renderable fen = true -> i < 8 ->
  exists r, positionArray fen !! i = Some r /\ 8 <= String.length r.
Proof.
  unfold renderable. intros H Hi.
  rewrite forallb_forall in H.
  assert (Hin : In i [7; 6; 5; 4; 3; 2; 1; 0]) by (simpl; lia).
  specialize (H i Hin).
  destruct (positionArray fen !! i) as [r|]; [|discriminate].
  exists r. split; [reflexivity|]. now apply Nat.leb_le.
Qed.

Lemma render_squares_normal fen w :
  renderable fen = true ->
  fst (render_squares (positionArray fen) w) = Normal tt.
Proof.
  intros H. unfold render_squares.
  apply for_each_normal. intros row Hrow w1.
  apply for_each_normal. intros col Hcol w2.
  assert (Hr : row - 1 < 8).
  { apply list_elem_of_In in Hrow. simpl in Hrow. lia. }
  assert (Hc : col < 8).
  { apply list_elem_of_In in Hcol. simpl in Hcol. lia. }
  destruct (renderable_row fen (row - 1) H Hr) as (r & Hlook & Hlen).
  apply (render_square_normal _ _ _ r); [exact Hlook|lia].
Qed.

Lemma show_game_over_normal w : fst (show_game_over w) = Normal tt.
Proof.
  unfold show_game_over, bind, gets, modify. simpl.
  destruct (gameState (state w)); reflexivity.
Qed.

Lemma renderBoard_normal w :
  renderable (fen (state w)) = true -> fst (renderBoard w) = Normal tt.
Proof.
  intros H. unfold renderBoard.
  rewrite bind_apply. unfold modify at 1.
  rewrite bind_apply. unfold gets at 1.
  rewrite bind_apply. unfold gets at 1.
  rewrite (bind_normal _ _ _ tt) by (destruct (String.eqb _ _); reflexivity).
  rewrite (bind_normal _ _ _ tt) by (apply render_squares_normal; exact H).
  apply show_game_over_normal.
Qed.

Lemma makeMove_normal moveNotation w :
  renderable (getFen (moved w moveNotation)) = true ->
  fst (makeMove moveNotation w) = Normal tt.
Proof.
  intros H. rewrite makeMove_unfold. apply renderBoard_normal.
  destruct (selectedSquare (state w)); exact H.
Qed.

(** *** makeComputerMove *)

Lemma makeComputerMove_unfold w :
  makeComputerMove w =
  (Normal tt,
   on_worker (fun k =>
     {| posted :=
          (posted k ++
           [{| msg_fen := fen (state w);
               msg_depth :=
                 difficultyScale_get (property_key (difficulty (state w))) |}])%list;
        onmessage := true |}) w).
Proof. reflexivity. Qed.

(** *** What a terminal status does: the game view is hidden

    The script reacts to a terminal status in [renderBoard] only: the
    container of the game is hidden and the result is shown. *)
Lemma show_game_over_hides_the_game w :
  terminal (gameState (state w)) = true ->
  game_display (page (snd (show_game_over w))) = display_none /\
  gameOver_display (page (snd (show_game_over w))) = display_block.
Proof.
  unfold show_game_over, bind, gets, modify. simpl.
  destruct (gameState (state w)); [discriminate|now split..].
Qed.

Lemma renderBoard_unfold w :
  renderBoard w =
  match when_ (String.eqb (playerColour (state w)) "b")
          (modify (on_page (set_chessboard_flip true)))
          (on_page (set_chessboard []) w) with
  | (Normal _, w1) =>
      match render_squares (positionArray (fen (state w))) w1 with
      | (Normal _, w2) => show_game_over w2
      | (TypeError, w2) => (TypeError, w2)
      end
  | (TypeError, w1) => (TypeError, w1)
  end.
Proof. reflexivity. Qed.

Lemma page_only_render_squares position : page_only (render_squares position).
Proof.
  apply page_only_for_each. intros row.
  apply page_only_for_each. intros col.
  apply page_only_render_square.
Qed.

Lemma renderBoard_hides_the_game w :
  terminal (gameState (state w)) = true ->
  fst (renderBoard w) = Normal tt ->
  game_display (page (snd (renderBoard w))) = display_none /\
  gameOver_display (page (snd (renderBoard w))) = display_block.
Proof.
  intros Ht. rewrite renderBoard_unfold.
  pose proof (page_only_when (String.eqb (playerColour (state w)) "b")
    _ (page_only_modify (set_chessboard_flip true))
    (on_page (set_chessboard []) w)) as [Hs1 _].
  destruct (when_ _ _ _) as [[[]|] w1]; [|discriminate].
  pose proof (page_only_render_squares (positionArray (fen (state w))) w1)
    as [Hs2 _].
  destruct (render_squares _ w1) as [[[]|] w2]; [|discriminate].
  intros _. apply show_game_over_hides_the_game.
  simpl in Hs1, Hs2. now rewrite Hs2, Hs1.
Qed.

(** *** The depth table *)

Lemma difficultyScale_keys k v :
  difficultyScale !! k = Some v ->
  k = "1" \/ k = "2" \/ k = "3" \/ k = "4" \/ k = "5".
Proof.
  unfold difficultyScale. intros H.
  destruct (decide (k = "1")) as [|H1]; [tauto|].
  destruct (decide (k = "2")) as [|H2]; [tauto|].
  destruct (decide (k = "3")) as [|H3]; [tauto|].
  destruct (decide (k = "4")) as [|H4]; [tauto|].
  destruct (decide (k = "5")) as [|H5]; [tauto|].
  rewrite !lookup_insert_ne, lookup_singleton_ne in H by congruence.
  discriminate.
Qed.

Lemma level_of_key d n :
  (1 <= n <= 5)%Z -> property_key d = pretty n -> names_level d n.
Proof.
  intros _ H. destruct d as [m|s]; simpl in H.
  - left. f_equal. now apply (inj pretty).
  - right. now f_equal.
Qed.

Lemma difficultyScale_level d n :
  (1 <= n <= 5)%Z -> names_level d n ->
  difficultyScale !! property_key d = Some (spec_depth n).
Proof.
  intros Hn Hd.
  assert (Hk : property_key d = pretty n) by (destruct Hd; now subst).
  rewrite Hk.
  assert (n = 1 \/ n = 2 \/ n = 3 \/ n = 4 \/ n = 5)%Z
    as [->|[->|[->|[->| ->]]]] by lia; reflexivity.
Qed.

Lemma difficultyScale_outside d :
  (forall n, (1 <= n <= 5)%Z -> ~ names_level d n) ->
  difficultyScale !! property_key d = None.
Proof.
  intros Hout.
  destruct (difficultyScale !! property_key d) as [v|] eqn:Hl; [|reflexivity].
  exfalso.
  destruct (difficultyScale_keys _ _ Hl) as [Hk|[Hk|[Hk|[Hk|Hk]]]].
  - apply (Hout 1%Z); [lia|]. apply level_of_key; [lia|exact Hk].
  - apply (Hout 2%Z); [lia|]. apply level_of_key; [lia|exact Hk].
  - apply (Hout 3%Z); [lia|]. apply level_of_key; [lia|exact Hk].
  - apply (Hout 4%Z); [lia|]. apply level_of_key; [lia|exact Hk].
  - apply (Hout 5%Z); [lia|]. apply level_of_key; [lia|exact Hk].
Qed.

Lemma difficultyScale_get_level d n :
  (1 <= n <= 5)%Z -> names_level d n ->
  difficultyScale_get (property_key d) = number (spec_depth n).
Proof.
  intros Hn Hd. unfold difficultyScale_get.
  now rewrite (difficultyScale_level d n Hn Hd).
Qed.

(** Outside the table the lookup goes to the prototype. *)
Lemma difficultyScale_get_outside d :
  (forall n, (1 <= n <= 5)%Z -> ~ names_level d n) ->
  difficultyScale_get (property_key d) =
    if String.eqb (property_key d) "__proto__" then Object_prototype
    else if existsb (String.eqb (property_key d)) Object_prototype_functions
    then inherited_function (property_key d)
    else undefined.
Proof.
  intros H. unfold difficultyScale_get.
  now rewrite (difficultyScale_outside d H).
Qed.

(** *** handleSquareClick, branch by branch *)

Lemma handleSquareClick_out_of_turn square w :
  getTurn w <> Some (playerColour (state w)) ->
  handleSquareClick square w = (Normal tt, w).
Proof.
  intros H. unfold handleSquareClick.
  now rewrite bool_decide_eq_false_2 by exact H.
Qed.

Lemma handleSquareClick_commit square selected w :
  getTurn w = Some (playerColour (state w)) ->
  selectedSquare (state w) = Some selected ->
  isValidMove (coordinate_of w selected +:+ coordinate_of w square) w = true ->
  handleSquareClick square w =
  bind (makeMove (coordinate_of w selected +:+ coordinate_of w square))
       (fun _ => makeComputerMove) w.
Proof.
  intros Ht Hs Hv. unfold handleSquareClick.
  rewrite bool_decide_eq_true_2 by exact Ht. simpl.
  now rewrite Hs, Hv.
Qed.

Lemma handleSquareClick_same_square square w :
  getTurn w = Some (playerColour (state w)) ->
  selectedSquare (state w) = Some square ->
  isValidMove (coordinate_of w square +:+ coordinate_of w square) w = false ->
  handleSquareClick square w = toggleSquareHighlight square w.
Proof.
  intros Ht Hs Hv. unfold handleSquareClick.
  rewrite bool_decide_eq_true_2 by exact Ht. simpl.
  now rewrite Hs, Hv, String.eqb_refl.
Qed.

Lemma handleSquareClick_arm square w :
  getTurn w = Some (playerColour (state w)) ->
  selectedSquare (state w) = None ->
  is_Some (piece_of w square) ->
  handleSquareClick square w =
  (Normal tt,
   on_state (set_selectedSquare (Some square))
     (snd (toggleSquareHighlight square w))).
Proof.
  intros Ht Hs [p Hp]. unfold handleSquareClick.
  rewrite bool_decide_eq_true_2 by exact Ht. simpl.
  now rewrite Hs, Hp.
Qed.

(** *** The status is never read by the click handler *)

Lemma makeMove_forgets_status moveNotation g w :
  makeMove moveNotation (on_state (set_gameState g) w) = makeMove moveNotation w.
Proof.
  rewrite !makeMove_unfold. simpl.
  destruct (selectedSquare (state w)); reflexivity.
Qed.

Lemma same_but_status_refl w : same_but_status w w.
Proof. now repeat split. Qed.

Lemma same_but_status_set g w :
  same_but_status (on_state (set_gameState g) w) w.
Proof. now repeat split. Qed.

(** Run from two states that differ in the status only, the handler ends
    the same way and leaves worlds that differ in the status only. *)
Lemma handleSquareClick_ignores_status square g w :
  fst (handleSquareClick square (on_state (set_gameState g) w))
    = fst (handleSquareClick square w) /\
  same_but_status
    (snd (handleSquareClick square (on_state (set_gameState g) w)))
    (snd (handleSquareClick square w)).
Proof.
  unfold handleSquareClick. simpl.
  change (getTurn (on_state (set_gameState g) w)) with (getTurn w).
  destruct (negb _); [split; [reflexivity|apply same_but_status_set]|].
  change (piece_of (on_state (set_gameState g) w) square)
    with (piece_of w square).
  change (coordinate_of (on_state (set_gameState g) w) square)
    with (coordinate_of w square).
  destruct (selectedSquare (state w)) as [sel|].
  - change (coordinate_of (on_state (set_gameState g) w) sel)
      with (coordinate_of w sel).
    change (isValidMove (coordinate_of w sel +:+ coordinate_of w square)
              (on_state (set_gameState g) w))
      with (isValidMove (coordinate_of w sel +:+ coordinate_of w square) w).
    destruct (isValidMove _ w).
    { rewrite !bind_apply, makeMove_forgets_status.
      split; [reflexivity|apply same_but_status_refl]. }
    destruct (String.eqb _ _); [now repeat split|].
    destruct (bool_decide _); now repeat split.
  - destruct (piece_of w square); now repeat split.
Qed.

(** ** The claims *)

(** C2, amended: in a state whose status is terminal, a square activation
    is ignored entirely when the side to move differs from the configured
    player colour. The handler has no other guard and never reads the
    status: whatever the status is, an activation ends the same way and
    writes the same document, requests, selection and position, so that
    when the side to move is the player's colour it runs as in a game in
    progress. *)
Theorem C2_terminal_status_leaves_only_the_turn_guard
    (w : World) (square : nat) :
  terminal (gameState (state w)) = true ->
  (getTurn w <> Some (playerColour (state w)) ->
     handleSquareClick square w = (Normal tt, w)) /\
  (forall g,
     fst (handleSquareClick square (on_state (set_gameState g) w))
       = fst (handleSquareClick square w) /\
     same_but_status
       (snd (handleSquareClick square (on_state (set_gameState g) w)))
       (snd (handleSquareClick square w))).
Proof.
  intros _. split.
  - apply handleSquareClick_out_of_turn.
  - intros g. apply handleSquareClick_ignores_status.
Qed.

(** C3, amended: for every computer-move reply that carries a present
    (non-empty) move, the move is applied by [makeMove] directly, without
    the legality-proxy check of the human path: the position and the status
    of the session become the engine's FEN and game-over answer for that
    move, whether or not the piece placement changed; player colour and
    difficulty stay, the selection is cleared, and no request is posted. *)
Theorem C3_reply_move_is_applied_unchecked (w : World) (move : string) :
  Js.truthy (Some move) = true ->
  session (snd (onmessage_handler (Some move) w)) =
    {| position := getFen (moved w move);
       status := isGameOver (moved w move);
       colour := playerColour (state w);
       level := difficulty (state w) |} /\
  selectedSquare (state (snd (onmessage_handler (Some move) w))) = None /\
  worker (snd (onmessage_handler (Some move) w)) = worker w.
Proof.
  intros Ht. destruct move as [|c m]; [discriminate|]. simpl.
  unfold session. rewrite makeMove_state, makeMove_worker. now simpl.
Qed.

(** C4, amended: a SearchRequest carrying the position after the move is
    posted right after every move committed through a square activation,
    whatever side is then to move and whatever the status then is
    (terminal included), provided the board can be drawn from the new
    position; a move committed from a reply of the compute boundary posts
    no request, in whatever state the reply arrives. *)
Theorem C4_request_follows_every_human_commit
    (w : World) (square selected : nat) :
  getTurn w = Some (playerColour (state w)) ->
  selectedSquare (state w) = Some selected ->
  isValidMove (coordinate_of w selected +:+ coordinate_of w square) w = true ->
  renderable
    (getFen (moved w (coordinate_of w selected +:+ coordinate_of w square)))
    = true ->
  posted (worker (snd (handleSquareClick square w))) =
    (posted (worker w) ++
     [{| msg_fen :=
           getFen (moved w (coordinate_of w selected +:+ coordinate_of w square));
         msg_depth :=
           difficultyScale_get (property_key (difficulty (state w))) |}])%list
  /\ forall (w' : World) (data : option string),
       posted (worker (snd (onmessage_handler data w'))) = posted (worker w') /\
       posted (worker (dispatch w' (Reply data))) = posted (worker w').
Proof.
  intros Ht Hs Hv Hr. split.
  - rewrite (handleSquareClick_commit _ _ _ Ht Hs Hv).
    rewrite (bind_normal _ _ _ tt) by (now apply makeMove_normal).
    rewrite makeComputerMove_unfold. simpl.
    now rewrite makeMove_worker, makeMove_state.
  - intros w' data.
    assert (Hh : posted (worker (snd (onmessage_handler data w')))
                 = posted (worker w')).
    { destruct data as [[|c m]|]; simpl; try reflexivity.
      now rewrite makeMove_worker. }
    split; [exact Hh|]. unfold dispatch, listener.
    destruct (onmessage (worker w')); [exact Hh|reflexivity].
Qed.

(** C5: a move attempt (a square is armed and another activation arrives)
    whose pair the engine leaves unchanged in piece placement mutates no
    field of the game session: position, status, player colour and
    difficulty keep their values. *)
Theorem C5_rejected_attempt_keeps_the_session
    (w : World) (square selected : nat) :
  selectedSquare (state w) = Some selected ->
  isValidMove (coordinate_of w selected +:+ coordinate_of w square) w = false ->
  session (snd (handleSquareClick square w)) = session w.
Proof.
  intros Hs Hv. unfold handleSquareClick.
  destruct (negb (bool_decide (getTurn w = Some (playerColour (state w)))));
    [reflexivity|].
  simpl. rewrite Hs, Hv.
  destruct (String.eqb _ _); [reflexivity|].
  destruct (bool_decide _); reflexivity.
Qed.

(** C6: while the side to move differs from the configured player colour,
    a square activation is a complete no-op: the handler returns at once,
    and the world after the click is the world before it (no move, no
    change of the session, the selection or the document). *)
Theorem C6_activation_out_of_turn_is_a_no_op (w : World) (square : nat) :
  getTurn w <> Some (playerColour (state w)) ->
  handleSquareClick square w = (Normal tt, w) /\
  forall coordinate, dispatch w (Click coordinate) = w.
Proof.
  intros H. split; [now apply handleSquareClick_out_of_turn|].
  intros c. unfold dispatch, listener.
  destruct (find_square w c); [|reflexivity].
  now rewrite handleSquareClick_out_of_turn.
Qed.

(** C8: for a difficulty of 1, 2, 3, 4 or 5 (the number, or its text from
    the settings form) [makeComputerMove] posts one request whose depth is
    2, 4, 5, 7 or 10 respectively and whose position is the FEN of the
    session at that moment. *)
Theorem C8_request_depth_and_position (w : World) (n : Z) :
  (1 <= n <= 5)%Z ->
  names_level (difficulty (state w)) n ->
  posted (worker (snd (makeComputerMove w))) =
    (posted (worker w) ++
     [{| msg_fen := fen (state w); msg_depth := number (spec_depth n) |}])%list.
Proof.
  intros Hn Hd. rewrite makeComputerMove_unfold. simpl.
  now rewrite (difficultyScale_get_level _ n Hn Hd).
Qed.

(** C9: a reply that is empty or absent is dropped: the handler completes
    without an error and leaves the world as it was (no move, the session
    unchanged, nothing posted). *)
Theorem C9_empty_reply_is_dropped (w : World) (data : option string) :
  Js.truthy data = false ->
  onmessage_handler data w = (Normal tt, w) /\
  dispatch w (Reply data) = w.
Proof.
  intros H. assert (Hh : onmessage_handler data w = (Normal tt, w)).
  { destruct data as [[|c m]|]; [reflexivity|discriminate|reflexivity]. }
  split; [exact Hh|]. unfold dispatch, listener.
  destruct (onmessage (worker w)); [now rewrite Hh|reflexivity].
Qed.

(** C10, amended: for a difficulty that is none of 1 to 5,
    [makeComputerMove] still completes and posts one request with the
    current FEN, and the depth of that request is never a number, so never
    a positive integer. It is the undefined value of the failed lookup
    whenever the difficulty names nothing the table inherits; for the name
    of a function inherited from [Object.prototype] it is that function,
    which the posted text leaves out like [undefined]; for [__proto__] it
    is [Object.prototype], posted as an empty object. *)
Theorem C10_request_depth_is_never_a_number (w : World) :
  (forall n, (1 <= n <= 5)%Z -> ~ names_level (difficulty (state w)) n) ->
  fst (makeComputerMove w) = Normal tt /\
  posted (worker (snd (makeComputerMove w))) =
    (posted (worker w)
     ++ [{| msg_fen := fen (state w);
            msg_depth :=
              difficultyScale_get (property_key (difficulty (state w))) |}])%list
  /\ (forall n,
        difficultyScale_get (property_key (difficulty (state w))) <> number n)
  /\ (inherited (property_key (difficulty (state w))) = false ->
        difficultyScale_get (property_key (difficulty (state w))) = undefined)
  /\ stringify_depth (difficultyScale_get (property_key (difficulty (state w))))
      = (if String.eqb (property_key (difficulty (state w))) "__proto__"
         then as_empty_object else left_out).
Proof.
  intros H. rewrite makeComputerMove_unfold. simpl.
  split; [reflexivity|]. split; [reflexivity|].
  rewrite (difficultyScale_get_outside _ H). unfold inherited.
  destruct (String.eqb _ "__proto__").
  - split; [discriminate|]. split; [discriminate|reflexivity].
  - destruct (existsb _ _).
    + split; [discriminate|]. split; [discriminate|reflexivity].
    + split; [discriminate|]. split; reflexivity.
Qed.

(** The slip behind C1: an activation of the armed square itself, for the
    move from a square to itself that the engine leaves unchanged, only
    toggles the highlight; the reference to the square stays in the
    state. *)
Lemma reclick_keeps_the_reference (w : World) (square : nat) :
  getTurn w = Some (playerColour (state w)) ->
  selectedSquare (state w) = Some square ->
  isValidMove (coordinate_of w square +:+ coordinate_of w square) w = false ->
  selectedSquare (state (snd (handleSquareClick square w))) = Some square.
Proof.
  intros Ht Hs Hv. now rewrite handleSquareClick_same_square.
Qed.

End ControllerFacts.

(** ** References stay valid *)

Section References.
Context {E : ChessEngineAPI}.

Lemma preserves_ret {A} J (a : A) : preserves J (ret a).
Proof. intros w H. exact H. Qed.

Lemma preserves_throw {A} J : preserves J (@throw A).
Proof. intros w H. exact H. Qed.

Lemma preserves_gets {A} J (f : World -> A) : preserves J (gets f).
Proof. intros w H. exact H. Qed.

Lemma preserves_bind {A B} J (m : M A) (k : A -> M B) :
  preserves J m -> (forall a, preserves J (k a)) -> preserves J (bind m k).
Proof.
  intros Hm Hk w H. unfold bind. specialize (Hm w H).
  destruct (m w) as [[a|] w']; simpl in *; [|exact Hm].
  now apply Hk.
Qed.

Lemma preserves_when J (c : bool) (m : M unit) :
  preserves J m -> preserves J (when_ c m).
Proof. destruct c; simpl; [trivial|intros _; apply preserves_ret]. Qed.

Lemma preserves_for_each {A} J (l : list A) (body : A -> M unit) :
  (forall a, preserves J (body a)) -> preserves J (for_each l body).
Proof.
  intros Hb. induction l as [|a l IH]; simpl.
  - apply preserves_ret.
  - apply preserves_bind; [apply Hb|intros _; exact IH].
Qed.

(** Writes that touch neither the element store, the board nor the
    selection keep the references valid. *)
Lemma allocated_same w w' :
  elements (page w') = elements (page w) ->
  chessboard (page w') = chessboard (page w) ->
  selectedSquare (state w') = selectedSquare (state w) ->
  allocated w -> allocated w'.
Proof. unfold allocated. intros -> -> ->. trivial. Qed.

Lemma allocated_update_element ref f :
  preserves allocated (update_element ref f).
Proof.
  intros w [Hb Hs]. split; simpl; intros r Hr;
    rewrite length_alter; [now apply Hb|now apply Hs].
Qed.

Lemma allocated_appendChild q : preserves allocated (appendChild q).
Proof.
  intros w [Hb Hs]. split; simpl; intros r Hr; rewrite length_app; simpl.
  - apply elem_of_app in Hr as [Hr|Hr].
    + specialize (Hb r Hr). lia.
    + apply list_elem_of_singleton in Hr. lia.
  - specialize (Hs r Hr). lia.
Qed.

Lemma allocated_render_square position row col :
  preserves allocated (render_square position row col).
Proof.
  unfold render_square.
  destruct (position !! (row - 1)) as [r|]; [|apply preserves_throw].
  destruct (Js.char_at r col) as [c|]; [|apply preserves_throw].
  destruct (Ascii.eqb c "0"); [apply allocated_appendChild|].
  apply preserves_bind; [apply preserves_gets|intros b].
  apply preserves_bind; [apply preserves_gets|intros t].
  apply allocated_appendChild.
Qed.

Lemma allocated_page_write (f : Page -> Page) :
  (forall p, elements (f p) = elements p) ->
  (forall p, chessboard (f p) = chessboard p) ->
  preserves allocated (modify (on_page f)).
Proof.
  intros He Hc w. apply allocated_same; simpl; auto.
Qed.

Lemma allocated_show_game_over : preserves allocated show_game_over.
Proof.
  unfold show_game_over.
  apply preserves_bind; [now apply allocated_page_write|intros _].
  apply preserves_bind; [now apply allocated_page_write|intros _].
  apply preserves_bind; [apply preserves_gets|intros g].
  destruct g.
  - apply preserves_bind; [now apply allocated_page_write|intros _].
    now apply allocated_page_write.
  - now apply allocated_page_write.
  - now apply allocated_page_write.
  - apply preserves_bind; [apply preserves_gets|intros t].
    now apply allocated_page_write.
Qed.

Lemma allocated_clear_board :
  preserves allocated (modify (on_page (set_chessboard []))).
Proof.
  intros w [_ Hs]. split; simpl; [|exact Hs].
  intros r Hr. now apply elem_of_nil in Hr.
Qed.

Lemma allocated_renderBoard : preserves allocated renderBoard.
Proof.
  unfold renderBoard, render_squares.
  apply preserves_bind; [apply allocated_clear_board|intros _].
  apply preserves_bind; [apply preserves_gets|intros position].
  apply preserves_bind; [apply preserves_gets|intros b].
  apply preserves_bind;
    [apply preserves_when; now apply allocated_page_write|intros _].
  apply preserves_bind; [|intros _; apply allocated_show_game_over].
  apply preserves_for_each. intros row.
  apply preserves_for_each. intros col.
  apply allocated_render_square.
Qed.

Lemma allocated_deselect :
  preserves allocated (modify (on_state (set_selectedSquare None))).
Proof. intros w [Hb _]. split; simpl; [exact Hb|discriminate]. Qed.

Lemma allocated_select square :
  preserves (fun w => allocated w /\ square < List.length (elements (page w)))
    (modify (on_state (set_selectedSquare (Some square)))).
Proof.
  intros w [[Hb _] Hlt]. split; [split|]; simpl; [exact Hb| |exact Hlt].
  now intros r [= <-].
Qed.

Lemma allocated_state_write (f : State -> State) :
  (forall s, selectedSquare (f s) = selectedSquare s) ->
  preserves allocated (modify (on_state f)).
Proof. intros Hf w. apply allocated_same; simpl; auto. Qed.

Lemma allocated_worker_write (f : Worker -> Worker) :
  preserves allocated (modify (on_worker f)).
Proof. intros w. now apply allocated_same. Qed.

Lemma allocated_makeMove moveNotation :
  preserves allocated (makeMove moveNotation).
Proof.
  unfold makeMove.
  apply preserves_bind; [apply preserves_gets|intros e].
  apply preserves_bind; [apply preserves_gets|intros sel].
  apply preserves_bind.
  { destruct sel; [apply allocated_update_element|apply preserves_ret]. }
  intros _.
  apply preserves_bind; [apply allocated_deselect|intros _].
  apply preserves_bind; [now apply allocated_state_write|intros _].
  apply preserves_bind; [now apply allocated_state_write|intros _].
  apply allocated_renderBoard.
Qed.

Lemma allocated_makeComputerMove : preserves allocated makeComputerMove.
Proof.
  unfold makeComputerMove.
  apply preserves_bind; [apply preserves_gets|intros msg].
  apply preserves_bind; [apply allocated_worker_write|intros _].
  apply allocated_worker_write.
Qed.

Lemma toggle_then_select square w :
  allocated w -> square < List.length (elements (page w)) ->
  allocated (on_state (set_selectedSquare (Some square))
               (snd (toggleSquareHighlight square w))).
Proof.
  intros Ha Hlt.
  apply (allocated_select square (snd (toggleSquareHighlight square w))).
  split; [now apply allocated_update_element|].
  simpl. now rewrite length_alter.
Qed.

Lemma allocated_handleSquareClick square w :
  square ∈ chessboard (page w) ->
  allocated w -> allocated (snd (handleSquareClick square w)).
Proof.
  intros Hin Ha. pose proof (proj1 Ha square Hin) as Hlt.
  unfold handleSquareClick.
  destruct (negb _); [exact Ha|].
  destruct (selectedSquare (state w)) as [sel|] eqn:Hsel.
  - destruct (isValidMove _ w).
    { apply preserves_bind; [apply allocated_makeMove| |exact Ha].
      intros _. apply allocated_makeComputerMove. }
    destruct (String.eqb _ _); [now apply allocated_update_element|].
    destruct (bool_decide _).
    + unfold bind. simpl.
      apply (allocated_select square).
      split; simpl; [|now rewrite !length_alter].
      now apply allocated_update_element, allocated_update_element.
    + unfold bind. simpl.
      now apply allocated_deselect, allocated_update_element.
  - destruct (piece_of w square); [|exact Ha].
    now apply toggle_then_select.
Qed.

Lemma allocated_submit form : preserves allocated (submit form).
Proof.
  assert (Hstore : forall v (set : string -> State -> State),
    (forall x s, selectedSquare (set x s) = selectedSquare s) ->
    preserves allocated
      (match v with
       | Some (String c s) => modify (on_state (set (String c s)))
       | _ => ret tt
       end)).
  { intros [[|c s]|] set Hset; try apply preserves_ret.
    apply allocated_state_write. intros s'. apply Hset. }
  unfold submit. cbv beta zeta.
  apply preserves_bind;
    [now apply (Hstore _ set_playerColour)|intros _].
  apply preserves_bind;
    [now apply (Hstore _ (fun d => set_difficulty (DStr d)))|intros _].
  apply preserves_bind; [now apply (Hstore _ set_fen)|intros _].
  apply preserves_bind; [now apply (Hstore _ set_pieceSet)|intros _].
  apply preserves_bind; [now apply (Hstore _ set_boardTheme)|intros _].
  apply preserves_bind; [now apply allocated_page_write|intros _].
  apply preserves_bind; [now apply allocated_page_write|intros _].
  apply preserves_bind; [apply allocated_renderBoard|intros _].
  apply preserves_bind; [apply preserves_gets|intros b].
  apply preserves_when, allocated_makeComputerMove.
Qed.

Lemma find_square_on_board w coordinate square :
  find_square w coordinate = Some square -> square ∈ chessboard (page w).
Proof.
  unfold find_square. intros H.
  destruct (list_find _ _) as [[i r]|] eqn:Hf; [|discriminate].
  injection H as <-. apply list_find_Some in Hf as (Hl & _ & _).
  simpl. now apply list_elem_of_lookup_2 in Hl.
Qed.

Lemma allocated_dispatch w e : allocated w -> allocated (dispatch w e).
Proof.
  intros Ha. unfold dispatch, listener. destruct e as [form|c|data].
  - now apply allocated_submit.
  - destruct (find_square w c) as [sq|] eqn:Hf; [|exact Ha].
    apply allocated_handleSquareClick; [|exact Ha].
    now apply (find_square_on_board w c).
  - destruct (onmessage (worker w)); [|exact Ha].
    destruct data as [[|c m]|]; try exact Ha.
    now apply allocated_makeMove.
Qed.

(** In every state the page can reach, the squares of the board and the
    selected square are elements that exist: the default of [element] is
    never what the handlers read. *)
Lemma reachable_allocated w : reachable w -> allocated w.
Proof.
  intros [events ->]. unfold run.
  assert (H : forall w0, allocated w0 -> allocated (foldl dispatch w0 events)).
  { induction events as [|e events IH]; intros w0 H0; simpl; [exact H0|].
    apply IH. now apply allocated_dispatch. }
  apply H. split; simpl.
  - intros r Hr. now apply elem_of_nil in Hr.
  - discriminate.
Qed.

End References.

(** ** More on the FEN codec *)

Section CodecExtras.

Lemma length_repeat0 n k :
  String.length (Js.repeat0 n k) = n + String.length k.
Proof. induction n as [|n IH]; simpl; [reflexivity|]. now rewrite IH. Qed.

Lemma letters_repeat0 n k : letters (Js.repeat0 n k) = letters k.
Proof. induction n as [|n IH]; simpl; [reflexivity|exact IH]. Qed.

Lemma markers_repeat0 n k :
  digits_are_markers (Js.repeat0 n k) = digits_are_markers k.
Proof. induction n as [|n IH]; simpl; [reflexivity|exact IH]. Qed.

Lemma length_expand_row row : String.length (expand_row row) = cells row.
Proof.
  induction row as [|c r IH]; simpl; [reflexivity|].
  destruct (Js.is_digit c); simpl.
  - now rewrite length_repeat0, IH.
  - now rewrite IH.
Qed.

Lemma letters_expand_row row : letters (expand_row row) = letters row.
Proof.
  induction row as [|c r IH]; simpl; [reflexivity|].
  destruct (Js.is_digit c) eqn:Hd; simpl.
  - now rewrite letters_repeat0.
  - now rewrite Hd, IH.
Qed.

Lemma markers_expand_row row : digits_are_markers (expand_row row) = true.
Proof.
  induction row as [|c r IH]; simpl; [reflexivity|].
  destruct (Js.is_digit c) eqn:Hd; simpl.
  - now rewrite markers_repeat0.
  - now rewrite Hd, IH.
Qed.

Lemma valid_rank_expands_to_8 row :
  valid_rank row = true -> String.length (expand_row row) = 8.
Proof.
  unfold valid_rank. intros H. apply andb_prop in H as [_ H].
  apply Nat.eqb_eq in H. now rewrite length_expand_row.
Qed.

Lemma valid_field_grid fen :
  valid_field (placement fen) = true ->
  List.length (positionArray fen) = 8 /\
  Forall (fun r => String.length r = 8) (positionArray fen).
Proof.
  unfold valid_field, positionArray. intros H.
  apply andb_prop in H as [Hn Hr]. apply Nat.eqb_eq in Hn.
  split.
  - now rewrite length_rev, length_map.
  - apply Forall_rev, Forall_map, Forall_forall. intros r Hin.
    apply valid_rank_expands_to_8.
    rewrite forallb_forall in Hr. apply Hr. now apply list_elem_of_In.
Qed.

Lemma split_at_without sep s :
  contains sep s = false -> Js.split_at sep s = (s, []).
Proof.
  induction s as [|c s IH]; simpl; [reflexivity|]. intros H.
  apply orb_false_elim in H as [Hc Hs]. now rewrite (IH Hs), Hc.
Qed.

Lemma split_at_field sep p rest :
  contains sep p = false ->
  Js.split_at sep (p +:+ String sep rest) = (p, Js.split sep rest).
Proof.
  induction p as [|c p IH]; simpl; intros H.
  - rewrite Ascii.eqb_refl. unfold Js.split.
    now destruct (Js.split_at sep rest).
  - apply orb_false_elim in H as [Hc Hp]. now rewrite (IH Hp), Hc.
Qed.

End CodecExtras.

(** X1: for a FEN whose position field has 8 ranks of digits and letters
    summing to 8 cells each, [transformFenToPositionArray] gives a grid of
    8 rows of 8 cells. *)
Theorem X1_valid_field_gives_an_8_by_8_grid (fen : string) :
  valid_field (placement fen) = true ->
  List.length (positionArray fen) = 8 /\
  Forall (fun r => String.length r = 8) (positionArray fen).
Proof. apply valid_field_grid. Qed.

(** X2: the expansion of a rank has as many cells as the rank describes
    (a digit [d] gives [d] cells, any other character one), keeps the
    characters that are not digits as they are and in their order, and
    contains no digit but the empty marker. *)
Theorem X2_expansion_keeps_letters_and_counts_cells (row : string) :
  String.length (expand_row row) = cells row /\
  letters (expand_row row) = letters row /\
  digits_are_markers (expand_row row) = true.
Proof.
  split; [apply length_expand_row|].
  split; [apply letters_expand_row|apply markers_expand_row].
Qed.

(** X3: [fen.split(' ')] reads the fields back: when the text before the
    first space has no space in it, it is the piece-placement field, and
    the side to move is the first field of what follows the space. *)
Theorem X3_fields_of_a_fen (p rest : string) :
  contains " " p = false ->
  placement (p +:+ String " " rest) = p /\
  turn_field (p +:+ String " " rest) = Some (placement rest).
Proof.
  intros H. unfold placement, turn_field, Js.split.
  rewrite (split_at_field " " p rest H). simpl.
  unfold Js.split. now destruct (Js.split_at " " rest).
Qed.

(** ** More on drawing the board *)

Section RenderExtras.
Context {E : ChessEngineAPI}.

Lemma for_each_throws {A} (l : list A) (body : A -> M unit) a :
  a ∈ l -> (forall w, fst (body a w) = TypeError) ->
  forall w, fst (for_each l body w) = TypeError.
Proof.
  intros Hin Ha. induction l as [|b l IH]; intros w.
  - now apply elem_of_nil in Hin.
  - simpl. rewrite bind_apply.
    apply elem_of_cons in Hin as [<-|Hin].
    + specialize (Ha w). now destruct (body a w) as [[[]|] w'].
    + destruct (body b w) as [[[]|] w']; [now apply IH|reflexivity].
Qed.

Lemma get_out_of_range r : forall i, String.length r <= i -> String.get i r = None.
Proof.
  induction r as [|c r IH]; intros i Hi; simpl in *; [reflexivity|].
  destruct i as [|i]; [lia|]. apply IH. lia.
Qed.

Lemma render_square_no_row position row col w :
  position !! (row - 1) = None ->
  fst (render_square position row col w) = TypeError.
Proof. intros H. unfold render_square. now rewrite H. Qed.

Lemma render_square_short_row position row col r w :
  position !! (row - 1) = Some r -> String.length r <= col ->
  fst (render_square position row col w) = TypeError.
Proof.
  intros H Hc. unfold render_square, Js.char_at.
  now rewrite H, (get_out_of_range r col Hc).
Qed.

Lemma forallb_false {A} (f : A -> bool) l :
  forallb f l = false -> exists a, a ∈ l /\ f a = false.
Proof.
  induction l as [|b l IH]; simpl; [discriminate|].
  destruct (f b) eqn:Hb; simpl; intros H.
  - destruct (IH H) as (a & Hin & Ha). exists a. split; [now right|exact Ha].
  - exists b. split; [left|exact Hb].
Qed.

Lemma render_squares_throws fen w :
  renderable fen = false ->
  fst (render_squares (positionArray fen) w) = TypeError.
Proof.
  unfold renderable. intros H.
  destruct (forallb_false _ _ H) as (i & Hin & Hi).
  assert (Hrow : S i ∈ [8; 7; 6; 5; 4; 3; 2; 1]).
  { apply list_elem_of_In in Hin. apply list_elem_of_In. simpl in *. lia. }
  unfold render_squares.
  apply (for_each_throws _ _ (S i) Hrow). intros w1.
  destruct (positionArray fen !! i) as [r|] eqn:Hl.
  - apply Nat.leb_gt in Hi.
    apply (for_each_throws _ _ 7); [apply list_elem_of_In; simpl; lia|]. intros w2.
    apply (render_square_short_row _ _ _ r); [|lia].
    now replace (S i - 1) with i by lia.
  - apply (for_each_throws _ _ 0); [apply list_elem_of_In; simpl; lia|]. intros w2.
    apply render_square_no_row. now replace (S i - 1) with i by lia.
Qed.

Lemma renderBoard_throws w :
  renderable (fen (state w)) = false -> fst (renderBoard w) = TypeError.
Proof.
  intros H. rewrite renderBoard_unfold.
  destruct (when_ _ _ _) as [[[]|] w1]; [|reflexivity].
  pose proof (render_squares_throws (fen (state w)) w1 H) as Ht.
  now destruct (render_squares _ w1) as [[[]|] w2].
Qed.

Lemma renderBoard_completes_iff w :
  fst (renderBoard w) = Normal tt <-> renderable (fen (state w)) = true.
Proof.
  split.
  - intros Hn. destruct (renderable (fen (state w))) eqn:Hr; [reflexivity|].
    rewrite (renderBoard_throws w Hr) in Hn. discriminate.
  - apply renderBoard_normal.
Qed.

Lemma makeMove_throws moveNotation w :
  renderable (getFen (moved w moveNotation)) = false ->
  fst (makeMove moveNotation w) = TypeError.
Proof.
  intros H. rewrite makeMove_unfold. apply renderBoard_throws.
  destruct (selectedSquare (state w)); exact H.
Qed.

Lemma valid_field_renderable fen :
  valid_field (placement fen) = true -> renderable fen = true.
Proof.
  intros H. destruct (valid_field_grid fen H) as [Hn Hr].
  unfold renderable. apply forallb_forall. intros i Hin.
  assert (Hi : i < List.length (positionArray fen)) by (simpl in Hin; lia).
  destruct (lookup_lt_is_Some_2 _ _ Hi) as [r Hl]. rewrite Hl.
  rewrite Forall_lookup in Hr. rewrite (Hr i r Hl). reflexivity.
Qed.

End RenderExtras.

(** X4: drawing the board completes exactly when the position array has
    rows 0 to 7 with at least 8 cells each; with a row missing or too
    short an uncaught TypeError ends [renderBoard]. *)
Theorem X4_renderBoard_completes_iff_renderable (w : World) :
  (fst (renderBoard w) = Normal tt <-> renderable (fen (state w)) = true) /\
  (fst (renderBoard w) = TypeError <-> renderable (fen (state w)) = false).
Proof.
  split; [apply renderBoard_completes_iff|].
  split.
  - intros Ht. destruct (renderable (fen (state w))) eqn:Hr; [|reflexivity].
    rewrite (renderBoard_normal w Hr) in Ht. discriminate.
  - apply renderBoard_throws.
Qed.

(** X5: a FEN whose position field has 8 ranks of digits and letters
    summing to 8 cells each is always drawn without an error. *)
Theorem X5_valid_positions_are_drawn (w : World) :
  valid_field (placement (fen (state w))) = true ->
  fst (renderBoard w) = Normal tt.
Proof.
  intros H. now apply renderBoard_normal, valid_field_renderable.
Qed.

(** X6: [renderBoard] writes to the document only: the [state] object and
    the worker are as before, whether it completes or throws. *)
Theorem X6_renderBoard_writes_the_document_only (w : World) :
  state (snd (renderBoard w)) = state w /\
  worker (snd (renderBoard w)) = worker w.
Proof. apply page_only_renderBoard. Qed.

(** ** What renderBoard draws *)

Section Drawing.
Context {E : ChessEngineAPI}.

Lemma append_all_nil w : append_all [] w = w.
Proof.
  destruct w as [st [els cb fl gd sd od html] wk].
  unfold append_all, on_page, set_chessboard, set_elements. simpl.
  now rewrite !app_nil_r.
Qed.

Lemma append_all_app qs1 qs2 w :
  append_all qs2 (append_all qs1 w) = append_all (qs1 ++ qs2) w.
Proof.
  unfold append_all, on_page, set_chessboard, set_elements. simpl.
  rewrite !length_app, seq_app, <- !app_assoc. reflexivity.
Qed.

Lemma render_square_appends position row col c w :
  cell position row col = Some c ->
  render_square position row col w =
  (Normal tt, append_all [drawn_square (state w) position row col] w).
Proof.
  unfold drawn_square, render_square, cell. intros H.
  destruct (position !! (row - 1)) as [r|]; [simpl in H|discriminate].
  simpl. rewrite H. simpl. unfold piece_image.
  destruct (Ascii.eqb c "0"); reflexivity.
Qed.

(** A loop whose body appends squares that depend on the [state] object
    only appends them all. *)
Lemma for_each_appends {A} (l : list A) (body : A -> M unit)
    (qs : State -> A -> list Square) :
  (forall a, a ∈ l -> forall w,
     body a w = (Normal tt, append_all (qs (state w) a) w)) ->
  forall w,
    for_each l body w =
    (Normal tt, append_all (flat_map (qs (state w)) l) w).
Proof.
  induction l as [|a l IH]; intros Hb w; simpl.
  - now rewrite append_all_nil.
  - rewrite bind_apply, (Hb a) by left.
    rewrite IH by (intros b Hin; apply Hb; now right).
    now rewrite append_all_app.
Qed.

Lemma renderable_cell fen row col :
  renderable fen = true -> 1 <= row <= 8 -> col < 8 ->
  is_Some (cell (positionArray fen) row col).
Proof.
  intros H Hrow Hcol. unfold cell.
  destruct (renderable_row fen (row - 1) H) as (r & Hl & Hlen); [lia|].
  rewrite Hl. simpl. apply get_in_range. lia.
Qed.

Lemma render_squares_appends fen w :
  renderable fen = true ->
  render_squares (positionArray fen) w =
  (Normal tt, append_all (drawn (state w) (positionArray fen)) w).
Proof.
  intros H. unfold render_squares, drawn.
  apply (for_each_appends _ _
    (fun st row => map (drawn_square st (positionArray fen) row)
                     [0; 1; 2; 3; 4; 5; 6; 7])).
  intros row Hrow w1.
  rewrite (for_each_appends _ _
    (fun st col => [drawn_square st (positionArray fen) row col])).
  - reflexivity.
  - intros col Hcol w2.
    destruct (renderable_cell fen row col H) as [c Hc].
    + apply list_elem_of_In in Hrow. simpl in Hrow. lia.
    + apply list_elem_of_In in Hcol. simpl in Hcol. lia.
    + now apply (render_square_appends _ _ _ c).
Qed.

Lemma show_game_over_keeps_squares w :
  elements (page (snd (show_game_over w))) = elements (page w) /\
  chessboard (page (snd (show_game_over w))) = chessboard (page w).
Proof.
  unfold show_game_over, bind, gets, modify. simpl.
  destruct (gameState (state w)); now split.
Qed.

Lemma renderBoard_squares w :
  renderable (fen (state w)) = true ->
  elements (page (snd (renderBoard w))) =
    (elements (page w) ++ drawn (state w) (positionArray (fen (state w))))%list /\
  chessboard (page (snd (renderBoard w))) =
    seq (List.length (elements (page w))) 64.
Proof.
  intros H. rewrite renderBoard_unfold.
  destruct (String.eqb (playerColour (state w)) "b"); simpl;
    rewrite (render_squares_appends _ _ H);
    match goal with
    | |- context [show_game_over ?w1] =>
        destruct (show_game_over_keeps_squares w1) as [-> ->]
    end; now split.
Qed.

Lemma drawn_lookup st position row col :
  1 <= row <= 8 -> col < 8 ->
  drawn st position !! ((8 - row) * 8 + col)
  = Some (drawn_square st position row col).
Proof.
  intros Hrow Hcol.
  assert (Hr : row = 1 \/ row = 2 \/ row = 3 \/ row = 4 \/ row = 5 \/
               row = 6 \/ row = 7 \/ row = 8) by lia.
  assert (Hc : col = 0 \/ col = 1 \/ col = 2 \/ col = 3 \/ col = 4 \/
               col = 5 \/ col = 6 \/ col = 7) by lia.
  destruct Hr as [->|[->|[->|[->|[->|[->|[->| ->]]]]]]];
    destruct Hc as [->|[->|[->|[->|[->|[->|[->| ->]]]]]]]; reflexivity.
Qed.

End Drawing.

(** X7: when the board can be drawn, [renderBoard] replaces the children
    of the board by 64 squares created for the purpose; the child at place
    [(8 - row) * 8 + col] is the square of rank [row] and file [col]: its
    coordinate is the file letter followed by the rank, it is not
    highlighted, and it carries a piece image exactly when the cell
    [position[row-1][col]] is not the empty marker, black for a character
    that is its own lower case, white otherwise. *)
Theorem X7_renderBoard_draws_the_position (w : World) (row col : nat) :
  renderable (fen (state w)) = true ->
  1 <= row <= 8 -> col < 8 ->
  List.length (chessboard (page (snd (renderBoard w)))) = 64 /\
  exists ref,
    chessboard (page (snd (renderBoard w))) !! ((8 - row) * 8 + col) = Some ref /\
    List.length (elements (page w)) <= ref /\
    elements (page (snd (renderBoard w))) !! ref
    = Some (drawn_square (state w) (positionArray (fen (state w))) row col).
Proof.
  intros H Hrow Hcol. destruct (renderBoard_squares w H) as [-> ->].
  split; [apply length_seq|].
  exists (List.length (elements (page w)) + ((8 - row) * 8 + col)).
  split; [apply lookup_seq_lt; lia|]. split; [lia|].
  rewrite lookup_app_r by lia.
  replace (_ + _ - _) with ((8 - row) * 8 + col) by lia.
  now apply drawn_lookup.
Qed.

(** ** The result view, and the highlight *)

Section ViewExtras.
Context {E : ChessEngineAPI}.

Lemma renderBoard_result_view w :
  renderable (fen (state w)) = true ->
  game_display (page (snd (renderBoard w))) =
    (if terminal (gameState (state w)) then display_none else display_block) /\
  gameOver_display (page (snd (renderBoard w))) =
    (if terminal (gameState (state w)) then display_block else display_none) /\
  gameOver_innerHTML (page (snd (renderBoard w))) = game_over_text w.
Proof.
  intros H. rewrite renderBoard_unfold. unfold game_over_text.
  destruct (String.eqb (playerColour (state w)) "b"); simpl;
    rewrite (render_squares_appends _ _ H);
    unfold show_game_over, bind, gets, modify; simpl;
    destruct (gameState (state w)); simpl; repeat split.
Qed.

Lemma no_highlight_appendChild q :
  selected_square q = false -> preserves no_highlight (appendChild q).
Proof.
  intros Hq w Hw ref Hin. simpl in *.
  apply elem_of_app in Hin as [Hin|Hin].
  - specialize (Hw ref Hin).
    destruct (elements (page w) !! ref) as [q'|] eqn:Hl; [|discriminate].
    now rewrite (lookup_app_l_Some _ _ _ _ Hl).
  - apply list_elem_of_singleton in Hin as ->.
    rewrite lookup_app_r, Nat.sub_diag by lia. simpl. now rewrite Hq.
Qed.

Lemma no_highlight_render_square position row col :
  preserves no_highlight (render_square position row col).
Proof.
  unfold render_square.
  destruct (position !! (row - 1)) as [r|]; [|apply preserves_throw].
  destruct (Js.char_at r col) as [c|]; [|apply preserves_throw].
  destruct (Ascii.eqb c "0"); [now apply no_highlight_appendChild|].
  apply preserves_bind; [apply preserves_gets|intros b].
  apply preserves_bind; [apply preserves_gets|intros t].
  now apply no_highlight_appendChild.
Qed.

Lemma no_highlight_page_write (f : Page -> Page) :
  (forall p, elements (f p) = elements p) ->
  (forall p, chessboard (f p) = chessboard p) ->
  preserves no_highlight (modify (on_page f)).
Proof.
  intros He Hc w Hw ref. simpl. rewrite He, Hc. apply Hw.
Qed.

Lemma no_highlight_show_game_over : preserves no_highlight show_game_over.
Proof.
  unfold show_game_over.
  apply preserves_bind; [now apply no_highlight_page_write|intros _].
  apply preserves_bind; [now apply no_highlight_page_write|intros _].
  apply preserves_bind; [apply preserves_gets|intros g].
  destruct g.
  - apply preserves_bind; [now apply no_highlight_page_write|intros _].
    now apply no_highlight_page_write.
  - now apply no_highlight_page_write.
  - now apply no_highlight_page_write.
  - apply preserves_bind; [apply preserves_gets|intros t].
    now apply no_highlight_page_write.
Qed.

Lemma renderBoard_no_highlight w : no_highlight (snd (renderBoard w)).
Proof.
  unfold renderBoard. rewrite bind_apply. unfold modify at 1.
  assert (Hk : forall w0,
    chessboard (page w0) = [] -> no_highlight w0).
  { intros w0 H0 ref Hin. rewrite H0 in Hin. now apply elem_of_nil in Hin. }
  match goal with
  | |- no_highlight (snd (?k ?w0)) =>
      apply (fun Hp : preserves no_highlight k => Hp w0 (Hk w0 eq_refl))
  end.
  apply preserves_bind; [apply preserves_gets|intros position].
  apply preserves_bind; [apply preserves_gets|intros b].
  apply preserves_bind;
    [apply preserves_when; now apply no_highlight_page_write|intros _].
  apply preserves_bind; [|intros _; apply no_highlight_show_game_over].
  apply preserves_for_each. intros row.
  apply preserves_for_each. intros col.
  apply no_highlight_render_square.
Qed.

Lemma toggle_twice square w :
  snd (toggleSquareHighlight square (snd (toggleSquareHighlight square w))) = w.
Proof.
  destruct w as [st [els cb fl gd sd od html] wk].
  unfold toggleSquareHighlight, update_element, modify, on_page, set_elements.
  simpl. f_equal. f_equal.
  revert square. induction els as [|q els IH]; intros [|n]; simpl;
    try reflexivity.
  - destruct q as [c p b]. unfold with_class. simpl.
    now rewrite negb_involutive.
  - f_equal. apply IH.
Qed.

End ViewExtras.

(** X8: when [renderBoard] completes, the game container is shown and the
    result container hidden exactly when the status is 'playing'; for a
    terminal status the game is hidden and the result shown with its text:
    'BLACKWINS (checkmate)' when white is to move and 'WHITEWINS
    (checkmate)' otherwise, 'DRAW (stalemate)', 'DRAW (50-move rule)'. *)
Theorem X8_result_view_follows_the_status (w : World) :
  fst (renderBoard w) = Normal tt ->
  game_display (page (snd (renderBoard w))) =
    (if terminal (gameState (state w)) then display_none else display_block) /\
  gameOver_display (page (snd (renderBoard w))) =
    (if terminal (gameState (state w)) then display_block else display_none) /\
  gameOver_innerHTML (page (snd (renderBoard w))) = game_over_text w.
Proof.
  intros H. apply renderBoard_result_view. now apply renderBoard_completes_iff.
Qed.

(** X9: after [renderBoard], and so after [makeMove], no square of the
    board is highlighted, whether drawing completed or threw; after
    [makeMove] no square is selected either. *)
Theorem X9_no_highlight_after_a_move
    {E : ChessEngineAPI} (w : World) (moveNotation : string) :
  no_highlight (snd (renderBoard w)) /\
  no_highlight (snd (makeMove moveNotation w)) /\
  selectedSquare (state (snd (makeMove moveNotation w))) = None.
Proof.
  split; [apply renderBoard_no_highlight|]. split.
  - rewrite makeMove_unfold. apply renderBoard_no_highlight.
  - now rewrite makeMove_state.
Qed.

(** X10: toggling the highlight of a square twice restores the page as it
    was, for every reference. *)
Theorem X10_toggle_is_an_involution (w : World) (square : nat) :
  snd (toggleSquareHighlight square (snd (toggleSquareHighlight square w))) = w.
Proof. apply toggle_twice. Qed.

(** ** The settings form *)

Section SubmitExtras.

(** The listener up to the drawing of the board: the five stores and the
    two display writes. *)
Lemma submit_unfold form w :
  exists w0,
    state w0 =
      {| gameState := gameState (state w);
         selectedSquare := selectedSquare (state w);
         fen := stored (form_fen form) (fen (state w));
         playerColour := stored (form_playerColour form) (playerColour (state w));
         difficulty :=
           match form_difficulty form with
           | Some (String c s) => DStr (String c s)
           | _ => difficulty (state w)
           end;
         pieceSet := stored (form_pieceSet form) (pieceSet (state w));
         boardTheme := stored (form_boardTheme form) (boardTheme (state w)) |}
    /\ worker w0 = worker w
    /\ settings_display (page w0) = display_none
    /\ submit form w =
       match renderBoard w0 with
       | (Normal _, w1) =>
           when_ (String.eqb (playerColour (state w1)) "b") makeComputerMove w1
       | (TypeError, w1) => (TypeError, w1)
       end.
Proof.
  exists (on_page (set_game_display display_block)
           (on_page (set_settings_display display_none)
              (on_state (fun st =>
                 {| gameState := gameState st;
                    selectedSquare := selectedSquare st;
                    fen := stored (form_fen form) (fen st);
                    playerColour :=
                      stored (form_playerColour form) (playerColour st);
                    difficulty :=
                      match form_difficulty form with
                      | Some (String c s) => DStr (String c s)
                      | _ => difficulty st
                      end;
                    pieceSet := stored (form_pieceSet form) (pieceSet st);
                    boardTheme := stored (form_boardTheme form) (boardTheme st)
                 |}) w))).
  split; [reflexivity|]. split; [reflexivity|]. split; [reflexivity|].
  destruct w as [[g q f c d p b] pg wk].
  destruct form as [fc fd ff fp fb]. unfold submit. simpl.
  destruct fc as [[|? ?]|]; destruct fd as [[|? ?]|];
    destruct ff as [[|? ?]|]; destruct fp as [[|? ?]|];
    destruct fb as [[|? ?]|]; reflexivity.
Qed.

Lemma settings_display_renderBoard d :
  preserves (fun w => settings_display (page w) = d) renderBoard.
Proof.
  assert (Hw : forall f : Page -> Page,
    (forall p, settings_display (f p) = settings_display p) ->
    preserves (fun w => settings_display (page w) = d) (modify (on_page f))).
  { intros f Hf w H. simpl. now rewrite Hf. }
  unfold renderBoard, render_squares, show_game_over.
  apply preserves_bind; [now apply Hw|intros _].
  apply preserves_bind; [apply preserves_gets|intros position].
  apply preserves_bind; [apply preserves_gets|intros b].
  apply preserves_bind; [apply preserves_when; now apply Hw|intros _].
  apply preserves_bind.
  { apply preserves_for_each. intros row. apply preserves_for_each.
    intros col. unfold render_square.
    destruct (position !! (row - 1)) as [r|]; [|apply preserves_throw].
    destruct (Js.char_at r col) as [c|]; [|apply preserves_throw].
    destruct (Ascii.eqb c "0"); [now apply Hw|].
    apply preserves_bind; [apply preserves_gets|intros b'].
    apply preserves_bind; [apply preserves_gets|intros t].
    now apply Hw. }
  intros _.
  apply preserves_bind; [now apply Hw|intros _].
  apply preserves_bind; [now apply Hw|intros _].
  apply preserves_bind; [apply preserves_gets|intros g].
  destruct g.
  - apply preserves_bind; now (try intros _; apply Hw).
  - now apply Hw.
  - now apply Hw.
  - apply preserves_bind; [apply preserves_gets|intros t]. now apply Hw.
Qed.

Lemma when_makeComputerMove b w :
  when_ b makeComputerMove w =
  (Normal tt,
   if b then on_worker (with_request (request_of (state w))) w else w).
Proof. destruct b; reflexivity. Qed.

Lemma submit_effect form w :
  exists st',
    st' =
      {| gameState := gameState (state w);
         selectedSquare := selectedSquare (state w);
         fen := stored (form_fen form) (fen (state w));
         playerColour := stored (form_playerColour form) (playerColour (state w));
         difficulty :=
           match form_difficulty form with
           | Some (String c s) => DStr (String c s)
           | _ => difficulty (state w)
           end;
         pieceSet := stored (form_pieceSet form) (pieceSet (state w));
         boardTheme := stored (form_boardTheme form) (boardTheme (state w)) |}
    /\ state (snd (submit form w)) = st'
    /\ settings_display (page (snd (submit form w))) = display_none
    /\ fst (submit form w) =
         (if renderable (fen st') then Normal tt else TypeError)
    /\ worker (snd (submit form w)) =
         (if renderable (fen st') && String.eqb (playerColour st') "b"
          then with_request (request_of st') (worker w)
          else worker w).
Proof.
  destruct (submit_unfold form w) as (w0 & Hst & Hwk & Hsd & ->).
  eexists. split; [reflexivity|]. rewrite <- Hst.
  destruct (page_only_renderBoard w0) as [Hs1 Hw1].
  pose proof (settings_display_renderBoard display_none w0 Hsd) as Hd1.
  pose proof (X := renderBoard_normal w0).
  pose proof (Y := renderBoard_throws w0).
  destruct (renderBoard w0) as [[[]|] w1]; simpl in *.
  - rewrite when_makeComputerMove. simpl.
    destruct (renderable (fen (state w0))) eqn:Hr;
      [|specialize (Y eq_refl); discriminate].
    rewrite Hs1. simpl.
    destruct (String.eqb (playerColour (state w0)) "b"); simpl;
      rewrite ?Hs1, ?Hw1, ?Hwk; auto.
  - destruct (renderable (fen (state w0))) eqn:Hr;
      [specialize (X eq_refl); discriminate|].
    simpl. rewrite Hw1, Hwk. auto.
Qed.

End SubmitExtras.

(** X11: the submit listener stores exactly the form fields that are
    present and not empty, each in its own field of [state] (the
    difficulty as the text of the field), and leaves the others as they
    were; it never writes the status or the selection, and it hides the
    settings form. All this holds whether drawing the board completes or
    throws. *)
Theorem X11_submit_stores_the_present_fields (form : FormData) (w : World) :
  let st' := state (snd (submit form w)) in
  playerColour st' = stored (form_playerColour form) (playerColour (state w)) /\
  difficulty st' =
    match form_difficulty form with
    | Some (String c s) => DStr (String c s)
    | _ => difficulty (state w)
    end /\
  fen st' = stored (form_fen form) (fen (state w)) /\
  pieceSet st' = stored (form_pieceSet form) (pieceSet (state w)) /\
  boardTheme st' = stored (form_boardTheme form) (boardTheme (state w)) /\
  gameState st' = gameState (state w) /\
  selectedSquare st' = selectedSquare (state w) /\
  settings_display (page (snd (submit form w))) = display_none.
Proof.
  destruct (submit_effect form w) as (st' & -> & -> & Hd & _).
  simpl. now repeat split.
Qed.

(** X12: the submit listener completes exactly when the board can be drawn
    from the FEN it leaves in [state], and it posts a request, the first
    computer move, exactly when moreover the player colour it leaves is
    'b'; the request carries that FEN and the depth of the difficulty it
    leaves. Otherwise the worker is not touched. *)
Theorem X12_submit_requests_the_first_move_for_black
    (form : FormData) (w : World) :
  let st' := state (snd (submit form w)) in
  fst (submit form w) = (if renderable (fen st') then Normal tt else TypeError) /\
  worker (snd (submit form w)) =
    (if renderable (fen st') && String.eqb (playerColour st') "b"
     then with_request (request_of st') (worker w)
     else worker w).
Proof.
  destruct (submit_effect form w) as (st' & _ & -> & _ & Hf & Hw).
  simpl. now split.
Qed.

(** ** More on the click handler and the worker *)

Section ClickExtras.
Context {E : ChessEngineAPI}.

Lemma commit_apply moveNotation w :
  bind (makeMove moveNotation) (fun _ => makeComputerMove) w =
  match fst (makeMove moveNotation w) with
  | Normal _ =>
      (Normal tt,
       on_worker (with_request (request_of (state (snd (makeMove moveNotation w)))))
         (snd (makeMove moveNotation w)))
  | TypeError => (TypeError, snd (makeMove moveNotation w))
  end.
Proof.
  rewrite bind_apply. now destruct (makeMove moveNotation w) as [[[]|] w1].
Qed.

Lemma element_with_piece w square p :
  piece_of w square = Some p ->
  exists q, elements (page w) !! square = Some q /\ element w square = q.
Proof.
  unfold piece_of, element.
  destruct (elements (page w) !! square) as [q|]; [eauto|discriminate].
Qed.

Lemma handleSquareClick_idle_empty square w :
  selectedSquare (state w) = None -> piece_of w square = None ->
  handleSquareClick square w = (Normal tt, w).
Proof.
  intros Hs Hp. unfold handleSquareClick.
  destruct (negb _); [reflexivity|]. now rewrite Hs, Hp.
Qed.

Lemma handleSquareClick_rejected square selected w :
  getTurn w = Some (playerColour (state w)) ->
  selectedSquare (state w) = Some selected ->
  isValidMove (coordinate_of w selected +:+ coordinate_of w square) w = false ->
  String.eqb (coordinate_of w selected) (coordinate_of w square) = false ->
  handleSquareClick square w =
  (Normal tt,
   if bool_decide (data_piece_colour <$> piece_of w square
                   = Some (playerColour (state w)))
   then on_state (set_selectedSquare (Some square))
          (snd (toggleSquareHighlight square
                  (snd (toggleSquareHighlight selected w))))
   else on_state (set_selectedSquare None)
          (snd (toggleSquareHighlight selected w))).
Proof.
  intros Ht Hs Hv Hc. unfold handleSquareClick.
  rewrite bool_decide_eq_true_2 by exact Ht. simpl.
  rewrite Hs, Hv, Hc. now destruct (bool_decide _).
Qed.

(** The click handler and the worker: nothing is posted unless a move is
    committed and drawn. *)
Lemma handleSquareClick_worker square w :
  worker (snd (handleSquareClick square w)) = worker w \/
  (getTurn w = Some (playerColour (state w)) /\
   exists selected,
     selectedSquare (state w) = Some selected /\
     isValidMove (coordinate_of w selected +:+ coordinate_of w square) w = true /\
     renderable
       (getFen (moved w (coordinate_of w selected +:+ coordinate_of w square)))
       = true /\
     worker (snd (handleSquareClick square w)) =
       with_request (request_of (state (snd (handleSquareClick square w))))
         (worker w)).
Proof.
  unfold handleSquareClick.
  destruct (bool_decide (getTurn w = Some (playerColour (state w)))) eqn:Ht;
    simpl; [|now left].
  apply bool_decide_eq_true_1 in Ht.
  destruct (selectedSquare (state w)) as [sel|] eqn:Hs.
  - destruct (isValidMove _ w) eqn:Hv.
    + rewrite commit_apply.
      destruct (renderable (getFen
        (moved w (coordinate_of w sel +:+ coordinate_of w square)))) eqn:Hr.
      * rewrite (makeMove_normal _ _ Hr). simpl. right.
        split; [exact Ht|]. exists sel. rewrite makeMove_worker. auto.
      * left. rewrite (makeMove_throws _ _ Hr). simpl.
        now rewrite makeMove_worker.
    + left. destruct (String.eqb _ _); [reflexivity|].
      now destruct (bool_decide _).
  - left. now destruct (piece_of w square).
Qed.

Lemma handleSquareClick_settings square w :
  settings (state (snd (handleSquareClick square w))) = settings (state w).
Proof.
  unfold handleSquareClick.
  destruct (negb _); [reflexivity|].
  destruct (selectedSquare (state w)) as [sel|].
  - destruct (isValidMove _ w).
    + rewrite commit_apply.
      destruct (fst (makeMove _ w)); simpl; now rewrite makeMove_state.
    + destruct (String.eqb _ _); [reflexivity|].
      now destruct (bool_decide _).
  - now destruct (piece_of w square).
Qed.

Lemma onmessage_handler_settings data w :
  settings (state (snd (onmessage_handler data w))) = settings (state w) /\
  worker (snd (onmessage_handler data w)) = worker w.
Proof.
  destruct data as [[|c m]|]; simpl; try (now split).
  now rewrite makeMove_state, makeMove_worker.
Qed.

(** One event and the worker: the requests posted so far stay as they are,
    and at most one is added, built from the state the event leaves. *)
Lemma dispatch_worker w e :
  worker (dispatch w e) = worker w \/
  worker (dispatch w e) =
    with_request (request_of (state (dispatch w e))) (worker w).
Proof.
  unfold dispatch, listener. destruct e as [form|c|data].
  - destruct (submit_effect form w) as (st' & _ & Hst & _ & _ & ->).
    rewrite Hst. destruct (_ && _); auto.
  - destruct (find_square w c) as [sq|]; [|now left].
    destruct (handleSquareClick_worker sq w) as [H|(_ & sel & _ & _ & _ & H)];
      auto.
  - destruct (onmessage (worker w)); [|now left].
    left. apply onmessage_handler_settings.
Qed.

Lemma reachable_invariant (P : World -> Prop) :
  P initial -> (forall w e, P w -> P (dispatch w e)) ->
  forall w, reachable w -> P w.
Proof.
  intros H0 Hstep w [events ->]. unfold run.
  assert (H : forall w0, P w0 -> P (foldl dispatch w0 events)).
  { induction events as [|e events IH]; intros w0 Hw0; simpl; [exact Hw0|].
    apply IH. now apply Hstep. }
  now apply H.
Qed.

Lemma handler_installed_with_first_request w :
  reachable w -> (onmessage (worker w) = true <-> posted (worker w) <> []).
Proof.
  revert w.
  apply (reachable_invariant
    (fun w => onmessage (worker w) = true <-> posted (worker w) <> [])).
  - simpl. split; [discriminate|congruence].
  - intros w0 e IH. destruct (dispatch_worker w0 e) as [->| ->]; [exact IH|].
    simpl. split; [|reflexivity]. intros _ H.
    now apply app_eq_nil in H as [_ H].
Qed.

End ClickExtras.

(** X13: from Idle, on the player's turn, an activation of a square
    without a piece changes nothing; an activation of a square that holds
    a piece, of either colour, arms that square and flips its highlight,
    and changes neither the session nor the worker nor the children of the
    board. *)
Theorem X13_idle_activation
    {E : ChessEngineAPI} (w : World) (square : nat) :
  getTurn w = Some (playerColour (state w)) ->
  selectedSquare (state w) = None ->
  match piece_of w square with
  | None => handleSquareClick square w = (Normal tt, w)
  | Some _ =>
      fst (handleSquareClick square w) = Normal tt /\
      selectedSquare (state (snd (handleSquareClick square w))) = Some square /\
      selected_square (element (snd (handleSquareClick square w)) square)
        = negb (selected_square (element w square)) /\
      session (snd (handleSquareClick square w)) = session w /\
      worker (snd (handleSquareClick square w)) = worker w /\
      chessboard (page (snd (handleSquareClick square w))) = chessboard (page w)
  end.
Proof.
  intros Ht Hs. destruct (piece_of w square) as [p|] eqn:Hp.
  - rewrite handleSquareClick_arm by eauto. simpl.
    destruct (element_with_piece w square p Hp) as (q & Hq & Hel).
    repeat split. unfold element in *. simpl.
    rewrite list_lookup_alter_eq, Hq in *. simpl in *. now subst.
  - now apply handleSquareClick_idle_empty.
Qed.

(** X14: with a square armed, on the player's turn, an activation of a
    square with another coordinate that gives no accepted move either
    re-targets the selection, when the activated square holds a piece of
    the player's colour, or clears it; the handler completes and posts
    nothing. *)
Theorem X14_rejected_activation_retargets_or_clears
    {E : ChessEngineAPI} (w : World) (square selected : nat) :
  getTurn w = Some (playerColour (state w)) ->
  selectedSquare (state w) = Some selected ->
  isValidMove (coordinate_of w selected +:+ coordinate_of w square) w = false ->
  String.eqb (coordinate_of w selected) (coordinate_of w square) = false ->
  fst (handleSquareClick square w) = Normal tt /\
  selectedSquare (state (snd (handleSquareClick square w))) =
    (if bool_decide (data_piece_colour <$> piece_of w square
                     = Some (playerColour (state w)))
     then Some square else None) /\
  worker (snd (handleSquareClick square w)) = worker w.
Proof.
  intros Ht Hs Hv Hc.
  rewrite (handleSquareClick_rejected _ _ _ Ht Hs Hv Hc). simpl.
  now destruct (bool_decide _).
Qed.

(** X15: a square activation touches the worker only when it commits a
    move that can be drawn: if the worker differs after the handler, it was
    the player's turn, a square was armed, the engine changed the piece
    placement for the pair, the new position could be drawn, and exactly
    one request was added, built from the state the handler leaves. *)
Theorem X15_only_a_committed_move_posts
    {E : ChessEngineAPI} (w : World) (square : nat) :
  worker (snd (handleSquareClick square w)) <> worker w ->
  getTurn w = Some (playerColour (state w)) /\
  exists selected,
    selectedSquare (state w) = Some selected /\
    isValidMove (coordinate_of w selected +:+ coordinate_of w square) w = true /\
    renderable
      (getFen (moved w (coordinate_of w selected +:+ coordinate_of w square)))
      = true /\
    worker (snd (handleSquareClick square w)) =
      with_request (request_of (state (snd (handleSquareClick square w))))
        (worker w).
Proof.
  intros H. destruct (handleSquareClick_worker square w) as [Hw|Hw];
    [contradiction|exact Hw].
Qed.

(** X16: player colour, difficulty, piece set and board theme are written
    by the settings form only: no square activation and no message of the
    worker changes them. *)
Theorem X16_clicks_and_replies_keep_the_settings
    {E : ChessEngineAPI} (w : World) :
  (forall coordinate,
     settings (state (dispatch w (Click coordinate))) = settings (state w)) /\
  (forall data,
     settings (state (dispatch w (Reply data))) = settings (state w)).
Proof.
  split.
  - intros c. unfold dispatch, listener.
    destruct (find_square w c); [|reflexivity].
    apply handleSquareClick_settings.
  - intros data. unfold dispatch, listener.
    destruct (onmessage (worker w)); [|reflexivity].
    apply onmessage_handler_settings.
Qed.

(** X17: one event never removes or alters a posted request and adds at
    most one; a request that is added carries the FEN and the depth of the
    difficulty that the event leaves in [state], and comes with the reply
    handler installed. *)
Theorem X17_an_event_posts_at_most_one_request
    {E : ChessEngineAPI} (w : World) (e : Event) :
  worker (dispatch w e) = worker w \/
  worker (dispatch w e) =
    with_request (request_of (state (dispatch w e))) (worker w).
Proof. apply dispatch_worker. Qed.

(** X18: in every state the page can reach, the reply handler is assigned
    exactly when at least one request has been posted: no reply to a
    request can arrive before its handler. *)
Theorem X18_handler_is_installed_with_the_first_request
    {E : ChessEngineAPI} (w : World) :
  reachable w ->
  (onmessage (worker w) = true <-> posted (worker w) <> []).
Proof. apply handler_installed_with_first_request. Qed.

(** ** The board shows the position *)

Section BoardShowsPosition.
Context {E : ChessEngineAPI}.

(** A loop whose body appends squares, or throws after appending some of
    them, appends an initial segment of all the squares, and all of them
    when it completes. *)
Lemma for_each_appends_prefix {A} (l : list A) (body : A -> M unit)
    (qs : State -> A -> list Square) :
  (forall a w, exists p,
     p `prefix_of` qs (state w) a /\ snd (body a w) = append_all p w /\
     (fst (body a w) = Normal tt -> p = qs (state w) a)) ->
  forall w, exists p,
    p `prefix_of` flat_map (qs (state w)) l /\
    snd (for_each l body w) = append_all p w /\
    (fst (for_each l body w) = Normal tt -> p = flat_map (qs (state w)) l).
Proof.
  intros Hb. induction l as [|a l IH]; intros w; simpl.
  - exists []. split; [reflexivity|]. split; [|reflexivity].
    now rewrite append_all_nil.
  - rewrite bind_apply. destruct (Hb a w) as (p & Hp & Hs & Hn).
    destruct (body a w) as [[[]|] w1]; simpl in *.
    + specialize (Hn eq_refl). subst.
      destruct (IH (append_all (qs (state w) a) w)) as (p' & Hp' & Hs' & Hn').
      simpl in *. exists (qs (state w) a ++ p')%list.
      split; [now apply prefix_app|].
      split; [now rewrite Hs', append_all_app|].
      intros H. now rewrite (Hn' H).
    + exists p. split; [now apply prefix_app_r|].
      split; [exact Hs|discriminate].
Qed.

Lemma render_square_prefix position row col w :
  exists p,
    p `prefix_of` [drawn_square (state w) position row col] /\
    snd (render_square position row col w) = append_all p w /\
    (fst (render_square position row col w) = Normal tt ->
     p = [drawn_square (state w) position row col]).
Proof.
  destruct (cell position row col) as [c|] eqn:Hc.
  - rewrite (render_square_appends _ _ _ c w Hc). simpl. eauto.
  - exists []. split; [apply prefix_nil|].
    assert (Ht : render_square position row col w = (TypeError, w)).
    { unfold cell in Hc. unfold render_square.
      destruct (position !! (row - 1)) as [r|]; [simpl in Hc|reflexivity].
      now rewrite Hc. }
    rewrite Ht. simpl. split; [now rewrite append_all_nil|discriminate].
Qed.

Lemma render_squares_prefix position w :
  exists p,
    p `prefix_of` drawn (state w) position /\
    snd (render_squares position w) = append_all p w.
Proof.
  unfold render_squares, drawn.
  destruct (for_each_appends_prefix [8; 7; 6; 5; 4; 3; 2; 1]
    (fun row => for_each [0; 1; 2; 3; 4; 5; 6; 7]
                  (fun col => render_square position row col))
    (fun st row => map (drawn_square st position row) [0; 1; 2; 3; 4; 5; 6; 7]))
    with (w := w) as (p & Hp & Hs & _); [|eauto].
  intros row w1.
  destruct (for_each_appends_prefix [0; 1; 2; 3; 4; 5; 6; 7]
    (fun col => render_square position row col)
    (fun st col => [drawn_square st position row col]))
    with (w := w1) as (p & Hp & Hs & Hn).
  { intros col w2. apply render_square_prefix. }
  exists p. split; [exact Hp|]. split; [exact Hs|exact Hn].
Qed.

Lemma drawn_not_highlighted st position q :
  q ∈ drawn st position -> with_class false q = q.
Proof.
  unfold drawn. intros H. apply list_elem_of_In, in_flat_map in H.
  destruct H as (row & _ & H). apply in_map_iff in H as (col & <- & _).
  reflexivity.
Qed.

(** Squares appended to an empty board are the squares of the board. *)
Lemma board_squares_fresh (p : list Square) w :
  chessboard (page w) = [] ->
  Forall (fun q => with_class false q = q) p ->
  board_squares (append_all p w) = p /\
  forall ref, ref ∈ chessboard (page (append_all p w)) ->
    ref < List.length (elements (page (append_all p w))).
Proof.
  intros Hc Hp. unfold board_squares, element. simpl. rewrite Hc. simpl.
  split.
  - apply list_eq. intros i. rewrite list_lookup_fmap.
    destruct (p !! i) as [q|] eqn:Hq.
    + rewrite lookup_seq_lt by (now apply lookup_lt_Some in Hq). simpl.
      rewrite lookup_app_r by lia.
      replace (_ + i - _) with i by lia. rewrite Hq. simpl.
      f_equal. rewrite Forall_lookup in Hp. now apply (Hp i).
    + apply lookup_ge_None in Hq.
      now rewrite lookup_ge_None_2 by (rewrite length_seq; lia).
  - intros ref Hin. apply elem_of_seq in Hin. rewrite length_app. lia.
Qed.

Lemma renderBoard_shows_position w : board_shows_position (snd (renderBoard w)).
Proof.
  destruct (page_only_renderBoard w) as [Hst _].
  unfold board_shows_position. rewrite Hst. clear Hst.
  rewrite renderBoard_unfold.
  set (w0 := on_page (set_chessboard []) w).
  assert (H1 : exists w1,
    when_ (String.eqb (playerColour (state w)) "b")
      (modify (on_page (set_chessboard_flip true))) w0 = (Normal tt, w1) /\
    chessboard (page w1) = [] /\ state w1 = state w).
  { destruct (String.eqb _ _); simpl; eauto. }
  destruct H1 as (w1 & -> & Hc1 & Hs1).
  destruct (render_squares_prefix (positionArray (fen (state w))) w1)
    as (p & Hp & Hs).
  rewrite Hs1 in Hp.
  assert (Hfresh : Forall (fun q => with_class false q = q) p).
  { apply Forall_forall. intros q Hq.
    apply (drawn_not_highlighted (state w) (positionArray (fen (state w)))).
    destruct Hp as [k ->]. apply elem_of_app. now left. }
  destruct (board_squares_fresh p w1 Hc1 Hfresh) as [Hb Ha].
  assert (Hsq : forall w2,
    board_squares (snd (show_game_over w2)) = board_squares w2 /\
    (forall ref, ref ∈ chessboard (page (snd (show_game_over w2))) ->
       ref < List.length (elements (page (snd (show_game_over w2)))))
    = (forall ref, ref ∈ chessboard (page w2) ->
       ref < List.length (elements (page w2)))).
  { intros w2. unfold board_squares, element.
    destruct (show_game_over_keeps_squares w2) as [-> ->]. now split. }
  destruct (render_squares _ w1) as [[[]|] w2]; simpl in Hs; subst w2.
  - destruct (Hsq (append_all p w1)) as [-> ->]. now rewrite Hb.
  - simpl. now rewrite Hb.
Qed.

Lemma board_squares_update ref (f : Square -> Square) w :
  (forall q, with_class false (f q) = with_class false q) ->
  (forall r, r ∈ chessboard (page w) -> r < List.length (elements (page w))) ->
  board_squares (snd (update_element ref f w)) = board_squares w.
Proof.
  intros Hf Ha. unfold board_squares, element. simpl.
  apply map_ext_in. intros r Hr. apply list_elem_of_In, Ha in Hr.
  destruct (decide (ref = r)) as [->|Hne].
  - rewrite list_lookup_alter_eq.
    destruct (lookup_lt_is_Some_2 _ _ Hr) as [q ->]. simpl. apply Hf.
  - now rewrite list_lookup_alter_ne.
Qed.

Lemma shows_position_update ref (f : Square -> Square) :
  (forall q, with_class false (f q) = with_class false q) ->
  preserves board_shows_position (update_element ref f).
Proof.
  intros Hf w [Hp Ha]. split.
  - rewrite (board_squares_update ref f w Hf Ha). exact Hp.
  - simpl. intros r Hr. rewrite length_alter. now apply Ha.
Qed.

Lemma shows_position_toggle ref :
  preserves board_shows_position (toggleSquareHighlight ref).
Proof. now apply shows_position_update. Qed.

Lemma shows_position_select q :
  preserves board_shows_position (modify (on_state (set_selectedSquare q))).
Proof. intros w H. exact H. Qed.

Lemma shows_position_makeMove moveNotation w :
  board_shows_position (snd (makeMove moveNotation w)).
Proof. rewrite makeMove_unfold. apply renderBoard_shows_position. Qed.

Lemma shows_position_post :
  preserves board_shows_position makeComputerMove.
Proof. intros w H. exact H. Qed.

Lemma shows_position_handleSquareClick square :
  preserves board_shows_position (handleSquareClick square).
Proof.
  intros w H. unfold handleSquareClick.
  destruct (negb _); [exact H|].
  destruct (selectedSquare (state w)) as [sel|].
  - destruct (isValidMove _ w).
    { rewrite bind_apply.
      pose proof (shows_position_makeMove
        (coordinate_of w sel +:+ coordinate_of w square) w) as Hm.
      destruct (makeMove _ w) as [[[]|] w1]; [|exact Hm].
      now apply shows_position_post. }
    destruct (String.eqb _ _); [now apply shows_position_toggle|].
    destruct (bool_decide _).
    + apply preserves_bind; [apply shows_position_toggle| |exact H].
      intros _. apply preserves_bind; [apply shows_position_toggle|].
      intros _. apply shows_position_select.
    + apply preserves_bind; [apply shows_position_toggle| |exact H].
      intros _. apply shows_position_select.
  - destruct (piece_of w square); [|exact H].
    apply preserves_bind; [apply shows_position_toggle| |exact H].
    intros _. apply shows_position_select.
Qed.

Lemma shows_position_submit form w :
  board_shows_position (snd (submit form w)).
Proof.
  destruct (submit_unfold form w) as (w0 & _ & _ & _ & ->).
  pose proof (renderBoard_shows_position w0) as Hr.
  destruct (renderBoard w0) as [[[]|] w1]; [|exact Hr].
  rewrite when_makeComputerMove. simpl.
  now destruct (String.eqb _ _).
Qed.

Lemma shows_position_dispatch w e :
  board_shows_position w -> board_shows_position (dispatch w e).
Proof.
  intros H. unfold dispatch, listener. destruct e as [form|c|data].
  - apply shows_position_submit.
  - destruct (find_square w c); [|exact H].
    now apply shows_position_handleSquareClick.
  - destruct (onmessage (worker w)); [|exact H].
    destruct data as [[|c m]|]; try exact H.
    apply shows_position_makeMove.
Qed.

Lemma reachable_shows_position w : reachable w -> board_shows_position w.
Proof.
  revert w. apply (reachable_invariant board_shows_position).
  - split; [apply prefix_nil|]. intros r Hr. now apply elem_of_nil in Hr.
  - intros w e. apply shows_position_dispatch.
Qed.

End BoardShowsPosition.

(** X19: in every state the page can reach, the board shows the position
    of the state. The child of the board at place [(8 - row) * 8 + col],
    when the board has one, carries the coordinate of file [col] and rank
    [row], and the piece image a click finds on it is the one of the cell
    [position[row-1][col]] of the current FEN: none for the empty marker,
    else black or white by the case of the letter. *)
Theorem X19_the_board_shows_the_position
    {E : ChessEngineAPI} (w : World) (row col ref : nat) :
  reachable w ->
  1 <= row <= 8 -> col < 8 ->
  chessboard (page w) !! ((8 - row) * 8 + col) = Some ref ->
  coordinate_of w ref = default "undefined" (files !! col) +:+ pretty row /\
  piece_of w ref =
    cell (positionArray (fen (state w))) row col ≫= piece_image (state w).
Proof.
  intros Hr Hrow Hcol Href.
  destruct (reachable_shows_position w Hr) as [Hp _].
  assert (Hsq : board_squares w !! ((8 - row) * 8 + col)
                = Some (with_class false (element w ref))).
  { unfold board_squares. now rewrite list_lookup_fmap, Href. }
  pose proof (prefix_lookup_Some _ _ _ _ Hsq Hp) as Hd.
  rewrite (drawn_lookup _ _ row col Hrow Hcol) in Hd.
  assert (Heq : with_class false (element w ref) =
                drawn_square (state w) (positionArray (fen (state w))) row col)
    by congruence.
  split.
  - change (coordinate_of w ref)
      with (data_coordinate (with_class false (element w ref))).
    now rewrite Heq.
  - change (piece_of w ref)
      with (chess_piece (with_class false (element w ref))).
    now rewrite Heq.
Qed.

(** ** Turns, selections and moves *)

Section MoveExtras.
Context {E : ChessEngineAPI}.

Lemma turn_field_without_space fen :
  contains " " fen = false -> turn_field fen = None.
Proof.
  intros H. unfold turn_field, Js.split.
  now rewrite (split_at_without " " fen H).
Qed.

Lemma makeMove_completes_iff moveNotation w :
  fst (makeMove moveNotation w) = Normal tt <->
  renderable (getFen (moved w moveNotation)) = true.
Proof.
  split; [|apply makeMove_normal].
  intros Hn. destruct (renderable _) eqn:Hr; [reflexivity|].
  rewrite (makeMove_throws _ _ Hr) in Hn. discriminate.
Qed.

Lemma coordinate_of_update ref b w r :
  coordinate_of (snd (update_element ref (with_class b) w)) r = coordinate_of w r.
Proof.
  unfold coordinate_of, element. simpl.
  destruct (decide (ref = r)) as [->|Hne].
  - rewrite list_lookup_alter_eq. now destruct (elements (page w) !! r).
  - now rewrite list_lookup_alter_ne.
Qed.

Lemma coordinate_of_toggle ref w r :
  coordinate_of (snd (toggleSquareHighlight ref w)) r = coordinate_of w r.
Proof.
  unfold coordinate_of, element. simpl.
  destruct (decide (ref = r)) as [->|Hne].
  - rewrite list_lookup_alter_eq. now destruct (elements (page w) !! r).
  - now rewrite list_lookup_alter_ne.
Qed.

(** Origin, then destination. *)
Lemma two_clicks_commit w origin destination :
  getTurn w = Some (playerColour (state w)) ->
  selectedSquare (state w) = None ->
  is_Some (piece_of w origin) ->
  isValidMove (coordinate_of w origin +:+ coordinate_of w destination) w = true ->
  handleSquareClick destination (snd (handleSquareClick origin w)) =
  bind (makeMove (coordinate_of w origin +:+ coordinate_of w destination))
       (fun _ => makeComputerMove)
       (on_state (set_selectedSquare (Some origin))
          (snd (toggleSquareHighlight origin w))).
Proof.
  intros Ht Hs Hp Hv. rewrite (handleSquareClick_arm _ _ Ht Hs Hp).
  cbn [snd].
  set (w1 := on_state (set_selectedSquare (Some origin))
               (snd (toggleSquareHighlight origin w))).
  assert (Hc : forall r, coordinate_of w1 r = coordinate_of w r).
  { intros r. apply (coordinate_of_toggle origin w r). }
  assert (Hv1 : isValidMove
            (coordinate_of w1 origin +:+ coordinate_of w1 destination) w1 = true).
  { rewrite !Hc. exact Hv. }
  rewrite (handleSquareClick_commit destination origin w1 Ht eq_refl Hv1).
  now rewrite !Hc.
Qed.

Lemma selection_on_board_handleSquareClick square w :
  square ∈ chessboard (page w) ->
  selection_on_board w ->
  selection_on_board (snd (handleSquareClick square w)).
Proof.
  intros Hin H. unfold handleSquareClick.
  destruct (negb _); [exact H|].
  destruct (selectedSquare (state w)) as [sel|] eqn:Hs.
  - destruct (isValidMove _ w).
    { rewrite commit_apply. intros ref.
      destruct (fst (makeMove _ w)); simpl; now rewrite makeMove_state. }
    destruct (String.eqb _ _).
    { intros ref Hr. simpl in *. now apply H. }
    destruct (bool_decide _); intros ref; simpl; [|discriminate].
    now intros [= <-].
  - destruct (piece_of w square); [|exact H].
    intros ref. simpl. now intros [= <-].
Qed.

Lemma selection_on_board_dispatch w e :
  is_submit e = false -> selection_on_board w ->
  selection_on_board (dispatch w e).
Proof.
  intros He H. unfold dispatch, listener.
  destruct e as [form|c|data]; [discriminate| |].
  - destruct (find_square w c) as [sq|] eqn:Hf; [|exact H].
    apply selection_on_board_handleSquareClick; [|exact H].
    now apply (find_square_on_board w c).
  - destruct (onmessage (worker w)); [|exact H].
    destruct data as [[|c m]|]; try exact H.
    unfold onmessage_handler, selection_on_board. intros ref.
    now rewrite makeMove_state.
Qed.

Lemma selection_on_board_after_submit form events :
  forallb (fun e => negb (is_submit e)) events = true ->
  selection_on_board (run (Submit form :: events)).
Proof.
  unfold run. simpl. intros Hev.
  assert (H0 : selection_on_board (dispatch initial (Submit form))).
  { intros ref. unfold dispatch, listener.
    destruct (submit_effect form initial) as (st' & -> & -> & _).
    discriminate. }
  revert H0. generalize (dispatch initial (Submit form)).
  induction events as [|e events IH]; intros w0 H0; simpl; [exact H0|].
  simpl in Hev. apply andb_prop in Hev as [He Hev].
  apply IH; [exact Hev|].
  apply selection_on_board_dispatch; [|exact H0].
  now apply negb_true_iff.
Qed.

End MoveExtras.

(** X20: when the FEN of the state has no space in it, [getTurn] is
    undefined, the turn test can never succeed, and every square
    activation is ignored. *)
Theorem X20_fen_without_turn_field_freezes_the_board
    {E : ChessEngineAPI} (w : World) :
  contains " " (fen (state w)) = false ->
  getTurn w = None /\
  (forall square, handleSquareClick square w = (Normal tt, w)) /\
  (forall coordinate, dispatch w (Click coordinate) = w).
Proof.
  intros H.
  assert (Ht : getTurn w = None) by now apply turn_field_without_space.
  assert (Hh : forall square, handleSquareClick square w = (Normal tt, w)).
  { intros sq. apply handleSquareClick_out_of_turn. now rewrite Ht. }
  split; [exact Ht|]. split; [exact Hh|].
  intros c. unfold dispatch, listener.
  destruct (find_square w c); [now rewrite Hh|reflexivity].
Qed.

(** X21: [makeMove] completes exactly when the board can be drawn from the
    FEN the engine answers; when it throws, the position and the status of
    the session are the engine's all the same, because they are written
    before the board is drawn. *)
Theorem X21_makeMove_completes_iff_the_answer_is_drawn
    {E : ChessEngineAPI} (w : World) (moveNotation : string) :
  (fst (makeMove moveNotation w) = Normal tt <->
   renderable (getFen (moved w moveNotation)) = true) /\
  fen (state (snd (makeMove moveNotation w))) = getFen (moved w moveNotation) /\
  gameState (state (snd (makeMove moveNotation w)))
    = isGameOver (moved w moveNotation).
Proof.
  split; [apply makeMove_completes_iff|].
  now rewrite makeMove_state.
Qed.

(** X22: in a run that starts with the settings form and goes on with
    square activations and messages of the worker only, the selected
    square, when there is one, is always a child of the board. *)
Theorem X22_the_selected_square_is_on_the_board
    {E : ChessEngineAPI} (form : FormData) (events : list Event) :
  forallb (fun e => negb (is_submit e)) events = true ->
  selection_on_board (run (Submit form :: events)).
Proof. apply selection_on_board_after_submit. Qed.

(** X23: two activations make a move. From Idle, on the player's turn, an
    activation of a square that holds a piece followed by an activation of
    a square for which the engine changes the piece placement leaves the
    engine's FEN and game-over answer for the pair in the session and no
    square selected; when the new position can be drawn, the handler
    completes and exactly one request, for the new position, is posted. *)
Theorem X23_origin_then_destination_commits
    {E : ChessEngineAPI} (w : World) (origin destination : nat) :
  getTurn w = Some (playerColour (state w)) ->
  selectedSquare (state w) = None ->
  is_Some (piece_of w origin) ->
  isValidMove (coordinate_of w origin +:+ coordinate_of w destination) w = true ->
  let move := coordinate_of w origin +:+ coordinate_of w destination in
  let w2 := snd (handleSquareClick destination (snd (handleSquareClick origin w))) in
  fen (state w2) = getFen (moved w move) /\
  gameState (state w2) = isGameOver (moved w move) /\
  selectedSquare (state w2) = None /\
  (renderable (getFen (moved w move)) = true ->
   fst (handleSquareClick destination (snd (handleSquareClick origin w)))
     = Normal tt /\
   worker w2 = with_request (request_of (state w2)) (worker w)).
Proof.
  intros Ht Hs Hp Hv move w2. subst w2.
  rewrite (two_clicks_commit _ _ _ Ht Hs Hp Hv), commit_apply.
  fold move.
  set (w1 := on_state (set_selectedSquare (Some origin))
               (snd (toggleSquareHighlight origin w))).
  assert (Hst : state (snd (makeMove move w1)) =
    set_gameState (isGameOver (moved w move))
      (set_fen (getFen (moved w move)) (set_selectedSquare None (state w)))).
  { now rewrite makeMove_state. }
  destruct (renderable (getFen (moved w move))) eqn:Hr.
  - rewrite (makeMove_normal move w1 Hr). simpl.
    rewrite makeMove_worker, Hst. simpl.
    split; [reflexivity|]. split; [reflexivity|]. split; [reflexivity|].
    intros _. now split.
  - rewrite (makeMove_throws move w1 Hr). simpl. rewrite Hst. simpl.
    split; [reflexivity|]. split; [reflexivity|]. split; [reflexivity|].
    discriminate.
Qed.

(** ** The claims on the test engine *)

#[local] Existing Instance FoolsMate.api.

(** C1 fails on the code. The player, as white, arms e2 (the square
    element 52 of the first board) and activates e2 again: the move e2e2
    leaves the position unchanged, the branch for the same coordinate only
    toggles the highlight off, and [state.selectedSquare] still refers to
    e2. The selection is not Idle: the next activation, on e4, plays
    e2e4. *)
Theorem C1_reclick_leaves_the_square_armed :
  let w := run (E := FoolsMate.api) FoolsMate.e2_armed in
  let w' := dispatch w (Click "e2") in
  (selectedSquare (state w) = Some 52 /\ coordinate_of w 52 = "e2" /\
   selected_square (element w 52) = true) /\
  (selectedSquare (state w') = Some 52 /\
   selected_square (element w' 52) = false) /\
  fen (state (dispatch w' (Click "e4"))) = FoolsMate.after_e4.
Proof. vm_compute. repeat split. Qed.

(** C2, as the claim words it, fails: after the fool's mate against the
    player (status checkmate, white to move, the player is white) an
    activation of e2 is not ignored: it arms the square. *)
Lemma C2_activation_after_mate_arms_a_square :
  let w := run (E := FoolsMate.api) FoolsMate.white_is_mated in
  reachable w /\
  gameState (state w) = checkmate /\
  terminal (gameState (state w)) = true /\
  selectedSquare (state w) = None /\
  selectedSquare (state (dispatch w (Click "e2"))) = Some 308 /\
  dispatch w (Click "e2") <> w.
Proof.
  split; [now exists FoolsMate.white_is_mated|].
  vm_compute. repeat split. discriminate.
Qed.

Lemma C2_witness :
  handleSquareClick (E := FoolsMate.api) 308
    (run (FoolsMate.black_to_mate ++ [Click "h4"]))
  = (Normal tt, run (FoolsMate.black_to_mate ++ [Click "h4"]))
  /\
  same_but_status
    (snd (handleSquareClick (E := FoolsMate.api) 308
            (on_state (set_gameState playing) (run FoolsMate.white_is_mated))))
    (snd (handleSquareClick (E := FoolsMate.api) 308
            (run FoolsMate.white_is_mated))).
Proof.
  split.
  - apply (C2_terminal_status_leaves_only_the_turn_guard
             (E := FoolsMate.api)
             (run (FoolsMate.black_to_mate ++ [Click "h4"])) 308).
    + vm_compute. reflexivity.
    + vm_compute. discriminate.
  - apply (C2_terminal_status_leaves_only_the_turn_guard
             (E := FoolsMate.api) (run FoolsMate.white_is_mated) 308).
    vm_compute. reflexivity.
Defined.

(** C3, as the claim words it, fails: the game is set up from the mated
    position with the player as black, so the status is still 'playing'
    when the request goes out. The reply e1f2 leaves the piece placement
    unchanged, yet it is not rejected: [makeMove] runs and the status of
    the session becomes checkmate. *)
Lemma C3_unchanged_reply_still_writes_the_session :
  let w := run (E := FoolsMate.api) [Submit FoolsMate.black_from_mate] in
  reachable w /\
  onmessage (worker w) = true /\
  isValidMove "e1f2" w = false /\
  status (session w) = playing /\
  status (session (dispatch w (Reply (Some "e1f2")))) = checkmate /\
  session (dispatch w (Reply (Some "e1f2"))) <> session w.
Proof.
  split; [now exists [Submit FoolsMate.black_from_mate]|].
  vm_compute. repeat split. discriminate.
Qed.

Lemma C3_witness :
  let w := run (E := FoolsMate.api)
             [Submit FoolsMate.no_choice; Click "f2"; Click "f3"] in
  session (snd (onmessage_handler (Some "e7e5") w)) =
    {| position := FoolsMate.after_e5; status := playing;
       colour := "w"; level := DNum 3 |} /\
  selectedSquare (state (snd (onmessage_handler (Some "e7e5") w))) = None /\
  worker (snd (onmessage_handler (Some "e7e5") w)) = worker w.
Proof.
  intros w.
  apply (C3_reply_move_is_applied_unchecked (E := FoolsMate.api) w "e7e5").
  reflexivity.
Defined.

(** C4, as the claim words it, fails: the player, as black, mates with
    d8h4. The move is committed, the status after it is checkmate, and a
    request with the mated position is posted all the same. *)
Lemma C4_request_is_posted_after_mate :
  let w := run (E := FoolsMate.api) FoolsMate.black_to_mate in
  let w' := dispatch w (Click "h4") in
  reachable w /\
  fen (state w) = FoolsMate.after_g4 /\
  fen (state w') = FoolsMate.mate /\
  terminal (gameState (state w')) = true /\
  posted (worker w') =
    (posted (worker w)
     ++ [{| msg_fen := FoolsMate.mate; msg_depth := number 5 |}])%list.
Proof.
  split; [now exists FoolsMate.black_to_mate|].
  vm_compute. repeat split.
Qed.

Lemma C4_witness :
  let w := run (E := FoolsMate.api) FoolsMate.black_to_mate in
  posted (worker (snd (handleSquareClick 231 w))) =
    (posted (worker w) ++
     [{| msg_fen := getFen (moved w (coordinate_of w 195 +:+ coordinate_of w 231));
         msg_depth :=
           difficultyScale_get (property_key (difficulty (state w))) |}])%list
  /\ forall (w' : World) (data : option string),
       posted (worker (snd (onmessage_handler data w'))) = posted (worker w') /\
       posted (worker (dispatch w' (Reply data))) = posted (worker w').
Proof.
  intros w.
  apply (C4_request_follows_every_human_commit (E := FoolsMate.api) w 231 195);
    vm_compute; reflexivity.
Defined.

Lemma C5_witness :
  let w := run (E := FoolsMate.api) FoolsMate.e2_armed in
  session (snd (handleSquareClick 12 w)) = session w.
Proof.
  intros w.
  apply (C5_rejected_attempt_keeps_the_session (E := FoolsMate.api) w 12 52);
    vm_compute; reflexivity.
Defined.

Lemma C6_witness :
  let w := run (E := FoolsMate.api)
             [Submit FoolsMate.no_choice; Click "f2"; Click "f3"] in
  handleSquareClick 76 w = (Normal tt, w) /\
  forall coordinate, dispatch w (Click coordinate) = w.
Proof.
  intros w.
  apply (C6_activation_out_of_turn_is_a_no_op (E := FoolsMate.api) w 76).
  vm_compute. discriminate.
Defined.

Lemma C8_witness :
  posted (worker (snd (makeComputerMove initial))) =
    [{| msg_fen := FoolsMate.start; msg_depth := number 5 |}].
Proof.
  apply (C8_request_depth_and_position initial 3).
  - lia.
  - left. reflexivity.
Defined.

Lemma C9_witness :
  let w := run (E := FoolsMate.api)
             [Submit FoolsMate.no_choice; Click "f2"; Click "f3"] in
  onmessage_handler (Some "") w = (Normal tt, w) /\
  dispatch w (Reply (Some "")) = w.
Proof.
  intros w.
  apply (C9_empty_reply_is_dropped (E := FoolsMate.api) w (Some "")).
  reflexivity.
Defined.

(** C10, as the claim words it, fails: the settings form gives the
    difficulty the text [__proto__], which is none of 1 to 5, and the
    black pieces to the player, so that the first request goes out with the
    submit. The lookup does not fail: the depth of the request is
    [Object.prototype], posted as an empty object, not the undefined or
    absent value. *)
Lemma C10_inherited_key_gives_a_depth :
  let w := run (E := FoolsMate.api) [Submit FoolsMate.black_with_proto] in
  reachable w /\
  difficulty (state w) = DStr "__proto__" /\
  (forall n, (1 <= n <= 5)%Z -> ~ names_level (difficulty (state w)) n) /\
  posted (worker w) =
    [{| msg_fen := FoolsMate.start; msg_depth := Object_prototype |}] /\
  Object_prototype <> undefined /\
  stringify_depth Object_prototype = as_empty_object /\
  stringify_depth Object_prototype <> left_out.
Proof.
  intros w.
  assert (Hd : difficulty (state w) = DStr "__proto__")
    by (vm_compute; reflexivity).
  split; [now exists [Submit FoolsMate.black_with_proto]|].
  split; [exact Hd|]. split.
  - rewrite Hd. intros n Hn [H|H]; [discriminate H|].
    assert (n = 1 \/ n = 2 \/ n = 3 \/ n = 4 \/ n = 5)%Z
      as [->|[->|[->|[->| ->]]]] by lia; vm_compute in H; discriminate H.
  - vm_compute. repeat split; discriminate.
Qed.

Lemma C10_witness :
  let w := on_state (set_difficulty (DStr "6")) initial in
  fst (makeComputerMove w) = Normal tt /\
  posted (worker (snd (makeComputerMove w))) =
    (posted (worker w)
     ++ [{| msg_fen := fen (state w);
            msg_depth :=
              difficultyScale_get (property_key (difficulty (state w))) |}])%list
  /\ (forall n,
        difficultyScale_get (property_key (difficulty (state w))) <> number n)
  /\ (inherited (property_key (difficulty (state w))) = false ->
        difficultyScale_get (property_key (difficulty (state w))) = undefined)
  /\ stringify_depth (difficultyScale_get (property_key (difficulty (state w))))
      = (if String.eqb (property_key (difficulty (state w))) "__proto__"
         then as_empty_object else left_out).
Proof.
  intros w.
  apply (C10_request_depth_is_never_a_number w).
  intros n Hn [H|H]; [discriminate H|].
  assert (n = 1 \/ n = 2 \/ n = 3 \/ n = 4 \/ n = 5)%Z
    as [->|[->|[->|[->| ->]]]] by lia; vm_compute in H; discriminate H.
Defined.

(** ** The scenarios of the specification on the test engine *)

(** Scenario A: from the starting position the player, as white, activates
    e2 and then e4; the position becomes the one after e4, black is to move
    and a request with that position and depth 5 is posted. *)
Example scenario_A :
  let w := run (FoolsMate.e2_armed ++ [Click "e4"]) in
  fen (state w) = FoolsMate.after_e4 /\
  getTurn w = Some "b" /\
  selectedSquare (state w) = None /\
  posted (worker w) =
    [{| msg_fen := FoolsMate.after_e4; msg_depth := number 5 |}].
Proof. vm_compute. repeat split. Qed.

(** Scenario C: e2 is armed and e7, a black pawn, is activated; the engine
    leaves the position unchanged, the selection returns to Idle and the
    session is as before. *)
Example scenario_C :
  let w := run FoolsMate.e2_armed in
  let w' := dispatch w (Click "e7") in
  selectedSquare (state w) = Some 52 /\
  selectedSquare (state w') = None /\
  session w' = session w /\
  posted (worker w') = [].
Proof. vm_compute. repeat split. Qed.

(** Scenario D, as far as the script goes: the mate sets the status and
    hides the game container. *)
Example scenario_D :
  let w := run FoolsMate.white_is_mated in
  gameState (state w) = checkmate /\
  game_display (page w) = display_none /\
  gameOver_display (page w) = display_block /\
  gameOver_innerHTML (page w) = "BLACKWINS (checkmate)".
Proof. vm_compute. repeat split. Qed.

(** ** The further properties on the test engine *)

Lemma X1_witness :
  List.length (positionArray FoolsMate.mate) = 8 /\
  Forall (fun r => String.length r = 8) (positionArray FoolsMate.mate).
Proof.
  apply (X1_valid_field_gives_an_8_by_8_grid FoolsMate.mate). reflexivity.
Defined.

Lemma X3_witness :
  placement FoolsMate.after_e4 = "rnbqkbnr/pppppppp/8/8/4P3/8/PPPP1PPP/RNBQKBNR" /\
  turn_field FoolsMate.after_e4 = Some "b".
Proof.
  apply (X3_fields_of_a_fen "rnbqkbnr/pppppppp/8/8/4P3/8/PPPP1PPP/RNBQKBNR"
           "b KQkq e3 0 1").
  reflexivity.
Defined.

Lemma X5_witness : fst (renderBoard initial) = Normal tt.
Proof. apply (X5_valid_positions_are_drawn initial). reflexivity. Defined.

Lemma X7_witness :
  List.length (chessboard (page (snd (renderBoard initial)))) = 64 /\
  exists ref,
    chessboard (page (snd (renderBoard initial))) !! ((8 - 2) * 8 + 4) = Some ref /\
    List.length (elements (page initial)) <= ref /\
    elements (page (snd (renderBoard initial))) !! ref
    = Some (drawn_square (state initial)
              (positionArray (fen (state initial))) 2 4).
Proof.
  apply (X7_renderBoard_draws_the_position initial 2 4); [reflexivity|lia|lia].
Defined.

Lemma X8_witness :
  let w := run FoolsMate.white_is_mated in
  game_display (page (snd (renderBoard w))) = display_none /\
  gameOver_display (page (snd (renderBoard w))) = display_block /\
  gameOver_innerHTML (page (snd (renderBoard w))) = "BLACKWINS (checkmate)".
Proof.
  intros w. apply (X8_result_view_follows_the_status w).
  vm_compute. reflexivity.
Defined.

Lemma X13_witness :
  let w := run [Submit FoolsMate.no_choice] in
  match piece_of w 52 with
  | None => handleSquareClick 52 w = (Normal tt, w)
  | Some _ =>
      fst (handleSquareClick 52 w) = Normal tt /\
      selectedSquare (state (snd (handleSquareClick 52 w))) = Some 52 /\
      selected_square (element (snd (handleSquareClick 52 w)) 52)
        = negb (selected_square (element w 52)) /\
      session (snd (handleSquareClick 52 w)) = session w /\
      worker (snd (handleSquareClick 52 w)) = worker w /\
      chessboard (page (snd (handleSquareClick 52 w))) = chessboard (page w)
  end.
Proof.
  intros w. apply (X13_idle_activation w 52); vm_compute; reflexivity.
Defined.

Lemma X14_witness :
  let w := run FoolsMate.e2_armed in
  fst (handleSquareClick 12 w) = Normal tt /\
  selectedSquare (state (snd (handleSquareClick 12 w))) =
    (if bool_decide (data_piece_colour <$> piece_of w 12
                     = Some (playerColour (state w)))
     then Some 12 else None) /\
  worker (snd (handleSquareClick 12 w)) = worker w.
Proof.
  intros w.
  apply (X14_rejected_activation_retargets_or_clears w 12 52);
    vm_compute; reflexivity.
Defined.

Lemma X15_witness :
  let w := run FoolsMate.e2_armed in
  getTurn w = Some (playerColour (state w)) /\
  exists selected,
    selectedSquare (state w) = Some selected /\
    isValidMove (coordinate_of w selected +:+ coordinate_of w 36) w = true /\
    renderable
      (getFen (moved w (coordinate_of w selected +:+ coordinate_of w 36)))
      = true /\
    worker (snd (handleSquareClick 36 w)) =
      with_request (request_of (state (snd (handleSquareClick 36 w))))
        (worker w).
Proof.
  intros w. apply (X15_only_a_committed_move_posts w 36).
  vm_compute. discriminate.
Defined.

Lemma X18_witness :
  let w := run (FoolsMate.e2_armed ++ [Click "e4"])%list in
  onmessage (worker w) = true <-> posted (worker w) <> [].
Proof.
  intros w. apply (X18_handler_is_installed_with_the_first_request w).
  now exists (FoolsMate.e2_armed ++ [Click "e4"])%list.
Defined.

Lemma X19_witness :
  let w := run FoolsMate.e2_armed in
  coordinate_of w 52 = default "undefined" (files !! 4) +:+ pretty 2 /\
  piece_of w 52 =
    cell (positionArray (fen (state w))) 2 4 ≫= piece_image (state w).
Proof.
  intros w. apply (X19_the_board_shows_the_position w 2 4 52).
  - now exists FoolsMate.e2_armed.
  - lia.
  - lia.
  - vm_compute. reflexivity.
Defined.

Lemma X20_witness :
  let w := on_state (set_fen "8/8/8/8/8/8/8/8") initial in
  getTurn w = None /\
  (forall square, handleSquareClick square w = (Normal tt, w)) /\
  (forall coordinate, dispatch w (Click coordinate) = w).
Proof.
  intros w. apply (X20_fen_without_turn_field_freezes_the_board w).
  reflexivity.
Defined.

Lemma X22_witness :
  selection_on_board
    (run (Submit FoolsMate.no_choice :: [Click "e2"; Click "e2"; Click "d2"])).
Proof.
  apply (X22_the_selected_square_is_on_the_board FoolsMate.no_choice
           [Click "e2"; Click "e2"; Click "d2"]).
  reflexivity.
Defined.

Lemma X23_witness :
  let w := run [Submit FoolsMate.no_choice] in
  let w2 := snd (handleSquareClick 36 (snd (handleSquareClick 52 w))) in
  fen (state w2) = getFen (moved w (coordinate_of w 52 +:+ coordinate_of w 36)) /\
  gameState (state w2)
    = isGameOver (moved w (coordinate_of w 52 +:+ coordinate_of w 36)) /\
  selectedSquare (state w2) = None /\
  (renderable (getFen (moved w (coordinate_of w 52 +:+ coordinate_of w 36))) = true ->
   fst (handleSquareClick 36 (snd (handleSquareClick 52 w))) = Normal tt /\
   worker w2 = with_request (request_of (state w2)) (worker w)).
Proof.
  intros w.
  apply (X23_origin_then_destination_commits w 52 36).
  - vm_compute. reflexivity.
  - vm_compute. reflexivity.
  - vm_compute. eexists. reflexivity.
  - vm_compute. reflexivity.
Defined.
